(** * jsonapi-request: parameter sanitising, query strings and request assembly

    A shallow embedding of the request helper (the module that exports
    [buildSearchString], [buildMergedRequestInit], [buildSplitRequestInit],
    [makeRequest], and the [APIError] class of [error.ts]) together with the
    parts of the JavaScript platform the module relies on: truthiness,
    [String(x)], [Array.prototype.join], [JSON.stringify], the [stringify]
    function of the [qs] package with the options the module passes, and the
    base check of the [URL] constructor.

    Layout: data model, platform functions, the module's functions, and the
    executor come first; the theorems follow. *)

From Stdlib Require Import ZArith String Ascii List DecimalString.
From stdpp Require Import gmap strings list.

#[local] Set Warnings "-register-all".
#[local] Open Scope string_scope.
#[local] Open Scope list_scope.

(** ** Data model *)

(** A parameter structure: a tree of scalars, dates, sequences and mappings.

    - Numbers are the integers (of magnitude below 10^21, where [String(n)]
      is the decimal numeral).
    - A string is a sequence of code units, one [ascii] per code unit, so the
      strings of the model are those over U+0000..U+00FF.
    - A [Date] is a valid date, represented by the two renderings the module
      can observe: [toISOString()] (used by [qs] and by [JSON.stringify])
      and [toString()] (used when a date is concatenated into a path).
    - A mapping lists its own enumerable properties in the order
      [Object.entries] yields them. *)
Inductive value : Type :=
  | VUndefined
  | VNull
  | VBool (b : bool)
  | VNum (n : Z)
  | VStr (s : string)
  | VDate (iso text : string)
  | VArr (elems : list value)
  | VObj (entries : list (string * value)).

(** [!!x]: the values that are not [undefined], [null], [false], [0] or ['']. *)
Definition truthy (v : value) : bool :=
  match v with
  | VUndefined | VNull => false
  | VBool b => b
  | VNum n => negb (n =? 0)%Z
  | VStr s => negb (String.eqb s "")
  | VDate _ _ | VArr _ | VObj _ => true
  end.

(** [x === '' || x === undefined || x === null], which is also
    [['', null, undefined].includes(x)]. *)
Definition is_absent (v : value) : bool :=
  match v with
  | VStr "" | VUndefined | VNull => true
  | _ => false
  end.

(** [typeof x === 'object' && !(x instanceof Date)]; [typeof null] is
    ['object'] too. *)
Definition is_structured (v : value) : bool :=
  match v with
  | VNull | VArr _ | VObj _ => true
  | _ => false
  end.

(** ** Text *)

(** The decimal numeral of an integer, which is [String(n)] and the JSON
    text of [n] for the safe integers (from 10^21 up JavaScript writes an
    exponent). *)
Definition string_of_Z (n : Z) : string := NilZero.string_of_int (Z.to_int n).
Definition string_of_nat (n : nat) : string := string_of_Z (Z.of_nat n).

(** [parts.join(sep)] on an array of strings. *)
Fixpoint join_strings (sep : string) (parts : list string) : string :=
  match parts with
  | [] => ""
  | [p] => p
  | p :: rest => p +:+ sep +:+ join_strings sep rest
  end.

(** [s.split(sep)] for a one-character separator; the empty string splits
    into one empty piece. *)
Fixpoint split_on (sep : ascii) (s : string) : list string :=
  match s with
  | EmptyString => [EmptyString]
  | String c rest =>
      if Ascii.eqb c sep then EmptyString :: split_on sep rest
      else match split_on sep rest with
           | [] => [String c EmptyString]
           | piece :: pieces => String c piece :: pieces
           end
  end.

Definition hex_digit (upper : bool) (d : N) : ascii :=
  ascii_of_N (if (d <? 10)%N then 48 + d
              else (if upper then 55 else 87) + d)%N.

Definition hex2 (upper : bool) (c : N) : string :=
  String (hex_digit upper (c / 16)%N) (String (hex_digit upper (c mod 16)%N) "").

(** ** Property access *)

Fixpoint obj_find {V : Type} (entries : list (string * V)) (key : string)
  : option V :=
  match entries with
  | [] => None
  | (k, v) :: rest => if String.eqb k key then Some v else obj_find rest key
  end.

(** [o[k]] on a mapping: [undefined] for a key it does not have. *)
Definition obj_get (entries : list (string * value)) (key : string) : value :=
  default VUndefined (obj_find entries key).

(** [o[k] = v] on a mapping: an existing key keeps its place, a new key
    goes last. *)
Fixpoint obj_set {V : Type} (entries : list (string * V)) (key : string) (v : V)
  : list (string * V) :=
  match entries with
  | [] => [(key, v)]
  | (k, v') :: rest =>
      if String.eqb k key then (key, v) :: rest
      else (k, v') :: obj_set rest key v
  end.

(** [{ ...target, ...source }]. *)
Definition obj_assign {V : Type} (target source : list (string * V))
  : list (string * V) :=
  fold_left (fun o '(k, v) => obj_set o k v) source target.

(** [delete o[k]] on a mapping. *)
Fixpoint obj_delete {V : Type} (entries : list (string * V)) (key : string)
  : list (string * V) :=
  match entries with
  | [] => []
  | (k, v) :: rest =>
      if String.eqb k key then obj_delete rest key
      else (k, v) :: obj_delete rest key
  end.

(** The array index a property key denotes, if it is the canonical numeral
    of an index below [len]. *)
Definition index_of_key (key : string) (len : nat) : option nat :=
  List.find (fun i => String.eqb (string_of_nat i) key) (seq 0 len).

(** [x[key]] for a non-nullish [x], and [x?.[key]] for any [x]: own
    properties only (the members inherited from the built-in prototypes are
    outside the model). *)
Definition get (x : value) (key : string) : value :=
  match x with
  | VObj entries => obj_get entries key
  | VArr elems =>
      if String.eqb key "length" then VNum (Z.of_nat (List.length elems))
      else match index_of_key key (List.length elems) with
           | Some i => nth i elems VUndefined
           | None => VUndefined
           end
  | VStr s =>
      if String.eqb key "length" then VNum (Z.of_nat (String.length s))
      else match index_of_key key (String.length s) with
           | Some i => VStr (substring i 1 s)
           | None => VUndefined
           end
  | _ => VUndefined
  end.

(** [delete x[key]] in strict mode, for a non-nullish [x]; [None] is the
    [TypeError] raised for a property that cannot be deleted (the [length]
    of an array or a string, a character of a string). Deleting an array
    element leaves a hole, which every reader in this module treats as
    [undefined]. *)
Definition delete_property (x : value) (key : string) : option value :=
  match x with
  | VObj entries => Some (VObj (obj_delete entries key))
  | VArr elems =>
      if String.eqb key "length" then None
      else match index_of_key key (List.length elems) with
           | Some i => Some (VArr (<[i := VUndefined]> elems))
           | None => Some x
           end
  | VStr s =>
      if String.eqb key "length" then None
      else match index_of_key key (String.length s) with
           | Some _ => None
           | None => Some x
           end
  | _ => Some x
  end.

(** ** Platform conversions *)

(** [String(x)]. *)
Fixpoint ToString (v : value) : string :=
  match v with
  | VUndefined => "undefined"
  | VNull => "null"
  | VBool b => if b then "true" else "false"
  | VNum n => string_of_Z n
  | VStr s => s
  | VDate _ text => text
  | VArr elems =>
      join_strings ","
        (List.map (fun e => match e with
                            | VUndefined | VNull => ""
                            | _ => ToString e
                            end) elems)
  | VObj _ => "[object Object]"
  end.

(** [xs.join(sep)]: [undefined] and [null] elements give the empty string,
    every other element its [String(x)]. *)
Definition Array_join (sep : string) (xs : list value) : string :=
  join_strings sep
    (List.map (fun e => match e with
                        | VUndefined | VNull => ""
                        | _ => ToString e
                        end) xs).

(** The quoting of [JSON.stringify] for a string. *)
Definition json_escape (c : ascii) : string :=
  let n := N_of_ascii c in
  if (n =? 34)%N then "\" +:+ String c ""
  else if (n =? 92)%N then "\\"
  else if (n =? 8)%N then "\b"
  else if (n =? 9)%N then "\t"
  else if (n =? 10)%N then "\n"
  else if (n =? 12)%N then "\f"
  else if (n =? 13)%N then "\r"
  else if (n <? 32)%N then "\u00" +:+ hex2 false n
  else String c "".

Fixpoint json_escape_all (s : string) : string :=
  match s with
  | EmptyString => ""
  | String c rest => json_escape c +:+ json_escape_all rest
  end.

(** The double quote, U+0022. *)
Definition dquote : ascii := ascii_of_N 34.

Definition json_quote (s : string) : string :=
  String dquote (json_escape_all s) +:+ String dquote "".

(** [JSON.stringify(x)]; [None] is the [undefined] it returns for
    [undefined]. An [undefined] array element is written [null], a property
    whose value is [undefined] is left out, a date is written as its
    [toISOString()]. *)
Fixpoint JSON_stringify (v : value) : option string :=
  match v with
  | VUndefined => None
  | VNull => Some "null"
  | VBool b => Some (if b then "true" else "false")
  | VNum n => Some (string_of_Z n)
  | VStr s => Some (json_quote s)
  | VDate iso _ => Some (json_quote iso)
  | VArr elems =>
      Some ("[" +:+
            join_strings ","
              (List.map (fun e => match JSON_stringify e with
                                  | Some t => t
                                  | None => "null"
                                  end) elems)
            +:+ "]")
  | VObj entries =>
      Some ("{" +:+
            join_strings ","
              (flat_map (fun '(k, e) => match JSON_stringify e with
                                        | Some t => [json_quote k +:+ ":" +:+ t]
                                        | None => []
                                        end) entries)
            +:+ "}")
  end.

(** [JSON.parse(JSON.stringify(x))] for an [x] other than [undefined],
    computed on the structure: the copy shares nothing with [x], dates
    become their ISO strings, [undefined] array elements become [null] and
    [undefined]-valued properties disappear. *)
Fixpoint json_clone (v : value) : value :=
  match v with
  | VUndefined => VNull
  | VDate iso _ => VStr iso
  | VArr elems => VArr (List.map json_clone elems)
  | VObj entries =>
      VObj (flat_map (fun '(k, e) => match e with
                                     | VUndefined => []
                                     | _ => [(k, json_clone e)]
                                     end) entries)
  | _ => v
  end.

(** ** The [qs] package: [stringify] *)

(** [utils.encode] with the default charset and format: the unreserved
    characters [A-Za-z0-9-._~] stay, every other code unit is written as the
    percent-escaped bytes of its UTF-8 encoding. *)
Definition qs_unreserved (c : N) : bool :=
  ((c =? 45) || (c =? 46) || (c =? 95) || (c =? 126)
   || ((48 <=? c) && (c <=? 57))
   || ((65 <=? c) && (c <=? 90))
   || ((97 <=? c) && (c <=? 122)))%N.

Definition qs_encode_unit (c : ascii) : string :=
  let n := N_of_ascii c in
  if qs_unreserved n then String c ""
  else if (n <? 128)%N then "%" +:+ hex2 true n
  else "%" +:+ hex2 true (N.lor 192 (N.shiftr n 6))
       +:+ "%" +:+ hex2 true (N.lor 128 (N.land n 63)).

Fixpoint qs_encode (s : string) : string :=
  match s with
  | EmptyString => ""
  | String c rest => qs_encode_unit c +:+ qs_encode rest
  end.

Definition is_null (v : value) : bool :=
  match v with VNull => true | _ => false end.

(** The recursive worker of [stringify], specialised to the options
    [{ arrayFormat: 'repeat', allowDots: true, skipNulls: true }] and the
    defaults for the rest: the list of [key=value] pairs for [obj] found
    under [prefix]. *)
Fixpoint qs_pairs (obj : value) (prefix : string) : list string :=
  match obj with
  | VUndefined => []
  | VNull => [qs_encode prefix +:+ "="]
  | VDate iso _ => [qs_encode prefix +:+ "=" +:+ qs_encode iso]
  | VBool _ | VNum _ | VStr _ =>
      [qs_encode prefix +:+ "=" +:+ qs_encode (ToString obj)]
  | VArr elems =>
      flat_map (fun e => if is_null e then [] else qs_pairs e prefix) elems
  | VObj entries =>
      flat_map (fun '(k, e) =>
                  if is_null e then [] else qs_pairs e (prefix +:+ "." +:+ k))
               entries
  end.

(** [Object.entries(x)]: the entries of a mapping, the indexed elements of
    an array, the indexed characters of a string, nothing for a date or
    any other primitive. *)
Definition own_entries (x : value) : list (string * value) :=
  match x with
  | VObj entries => entries
  | VArr elems => combine (List.map string_of_nat (seq 0 (List.length elems))) elems
  | VStr s =>
      List.map (fun i => (string_of_nat i, VStr (substring i 1 s)))
               (seq 0 (String.length s))
  | _ => []
  end.

(** [stringify(obj, { addQueryPrefix: true, arrayFormat: 'repeat',
    allowDots: true, skipNulls: true })]. A value that is not an object
    gives the empty string; the ['?'] is added only when there is a pair. *)
Definition qs_stringify (obj : value) : string :=
  match obj with
  | VObj _ | VArr _ | VDate _ _ =>
      let joined :=
        join_strings "&"
          (flat_map (fun '(k, e) => if is_null e then [] else qs_pairs e k)
                    (own_entries obj)) in
      if String.eqb joined "" then "" else "?" +:+ joined
  | _ => ""
  end.

(** ** The module: sanitising and query strings *)

(** [prepareParameters]. The two [reduce] calls are folds from the left:
    over the elements, pushing what is truthy after preparation, and over
    the entries, setting the key of every value that is not absent. *)
Fixpoint prepareParameters (params : value) : value :=
  match params with
  | VStr "" | VUndefined | VNull => VNull
  | VArr elems =>
      VArr (fold_left (fun accum curr =>
                         let prepared := prepareParameters curr in
                         if truthy prepared then accum ++ [prepared] else accum)
                      elems [])
  | VDate _ _ => params
  | VObj entries =>
      VObj (fold_left (fun accum '(k, v) =>
                         if is_absent v then accum
                         else obj_set accum k (prepareParameters v))
                      entries [])
  | _ => params
  end.

(** The [forEach] of [buildSearchString]: every own key whose value is an
    object and not a date is overwritten with its JSON text. *)
Definition stringify_structured (v : value) : value :=
  if is_structured v then
    match JSON_stringify v with
    | Some text => VStr text
    | None => VUndefined
    end
  else v.

Definition convert_objects (preparedParams : value) : value :=
  match preparedParams with
  | VObj entries =>
      VObj (List.map (fun '(k, v) => (k, stringify_structured v)) entries)
  | VArr elems => VArr (List.map stringify_structured elems)
  | _ => preparedParams
  end.

Definition buildSearchString (params : value) : string :=
  let preparedParams := prepareParameters params in
  if negb (truthy preparedParams) then ""
  else qs_stringify (convert_objects preparedParams).

(** ** Completions, the object store and its monad *)

(** [APIError] of [error.ts]: an [Error] with three more fields. The
    constructor's fourth argument is used for the message only. *)
Record APIError : Type := mkAPIError {
  name : string;
  message : string;
  status : Z;
  requestIdentifier : string;
  traceId : string
}.

Inductive thrown : Type :=
  | TypeError
  | OtherError (what : string)
  | Thrown_APIError (e : APIError).

Inductive completion (A : Type) : Type :=
  | Return (a : A)
  | Throw (e : thrown).
Arguments Return {A} a.
Arguments Throw {A} e.

Definition completion_map {A B : Type} (f : A -> B) (c : completion A)
  : completion B :=
  match c with
  | Return a => Return (f a)
  | Throw e => Throw e
  end.

Definition loc := nat.

(** What a caller passes for a parameter: a value of its own, or a
    reference to an object that lives in the store and that the caller (and
    anybody else) can still reach after the call. *)
Inductive jsarg : Type :=
  | Val (v : value)
  | Obj (l : loc).

(** A computation that may read and write the store and may throw. *)
Definition M (A : Type) : Type := gmap loc value -> completion A * gmap loc value.

Definition ret {A : Type} (a : A) : M A := fun h => (Return a, h).
Definition throw {A : Type} (e : thrown) : M A := fun h => (Throw e, h).
Definition bind {A B : Type} (c : M A) (k : A -> M B) : M B :=
  fun h => match c h with
           | (Return a, h') => k a h'
           | (Throw e, h') => (Throw e, h')
           end.

Notation "x <- c ;; k" := (bind c (fun x => k))
  (at level 100, c at next level, right associativity).

(** The value an argument denotes in a store. *)
Definition deref (h : gmap loc value) (a : jsarg) : value :=
  match a with
  | Val v => v
  | Obj l => default VUndefined (h !! l)
  end.

Definition load (a : jsarg) : M value := fun h => (Return (deref h a), h).

(** A new object, at a location that was not in use. *)
Definition alloc (v : value) : M loc :=
  fun h => let l := fresh (dom h) in (Return l, <[l := v]> h).

Definition store (l : loc) (v : value) : M unit :=
  fun h => (Return tt, <[l := v]> h).

(** ** Request assembly *)

Inductive HTTPMethod : Type := GET | POST | PUT | DELETE | PATCH.

(** [RequestInit] and [TypedRequestInit]: the options by name; [body] is
    one of them. *)
Definition RequestInit : Type := list (string * jsarg).

Definition is_GET (method : HTTPMethod) : bool :=
  match method with GET => true | _ => false end.

(** *** The base check of [new URL(input, base)] *)

Definition is_c0_or_space (c : ascii) : bool := (N_of_ascii c <=? 32)%N.
Definition is_tab_or_newline (c : ascii) : bool :=
  let n := N_of_ascii c in ((n =? 9) || (n =? 10) || (n =? 13))%N.
Definition is_alpha (c : ascii) : bool :=
  let n := N_of_ascii c in
  (((65 <=? n) && (n <=? 90)) || ((97 <=? n) && (n <=? 122)))%N.
Definition is_scheme_char (c : ascii) : bool :=
  let n := N_of_ascii c in
  (is_alpha c || ((48 <=? n) && (n <=? 57)) || (n =? 43) || (n =? 45) || (n =? 46))%N.

Fixpoint strip_leading (s : string) : string :=
  match s with
  | String c rest => if is_c0_or_space c then strip_leading rest else s
  | EmptyString => s
  end.

Fixpoint remove_tab_newline (s : string) : string :=
  match s with
  | String c rest =>
      if is_tab_or_newline c then remove_tab_newline rest
      else String c (remove_tab_newline rest)
  | EmptyString => s
  end.

(** The scheme state of the URL parser: scheme characters up to a [:]. *)
Fixpoint scheme_state (s : string) : bool :=
  match s with
  | String c rest =>
      if Ascii.eqb c ":" then true
      else if is_scheme_char c then scheme_state rest
      else false
  | EmptyString => false
  end.

(** Whether the URL parser finds a scheme at the start of [input]: after
    the leading C0 controls and spaces are stripped and tabs and newlines
    removed, a letter, then scheme characters, then [:]. Without one the
    parser is in its no-scheme state, which fails when there is no base to
    resolve against. *)
Definition URL_has_scheme (input : string) : bool :=
  match remove_tab_newline (strip_leading input) with
  | String c rest => is_alpha c && scheme_state rest
  | EmptyString => false
  end.

(** [segment.startsWith(':')], with the key [segment.slice(1)] when it
    does. *)
Definition path_key (segment : string) : option string :=
  match segment with
  | String c key => if Ascii.eqb c ":" then Some key else None
  | EmptyString => None
  end.

Section Assembler.

(** [new URL(input, base).pathname] for a [base] that starts with a
    scheme: the remainder of the URL parser (authority, host, path
    normalisation and percent-encoding), [None] where it fails. *)
Variable URL_resolve : string -> string -> option string.

(** [new URL(input, base).pathname]. The constructor parses [base] on its
    own first, and throws a [TypeError] when that fails; a [base] without
    a scheme, such as a bare path, always fails. *)
Definition URL_pathname (input base : string) : M string :=
  if URL_has_scheme base then
    match URL_resolve input base with
    | Some pathname => ret pathname
    | None => throw TypeError
    end
  else throw TypeError.

(** [let pathname = unboundPath; if (basePath) { pathname = new
    URL(unboundPath, basePath).pathname; }] *)
Definition resolve_pathname (basePath unboundPath : string) : M string :=
  if negb (String.eqb basePath "") then URL_pathname unboundPath basePath
  else ret unboundPath.

(** The loop of [buildMergedRequestInit] over the segments: a segment
    that starts with [:] is replaced by [paramCopy[key]], and the key is
    deleted from [paramCopy]. *)
Fixpoint substitute_merged (paramCopy : loc) (segments : list string)
  : M (list value) :=
  match segments with
  | [] => ret []
  | segment :: rest =>
      here <- match path_key segment with
              | Some key =>
                  copy <- load (Obj paramCopy) ;;
                  match delete_property copy key with
                  | Some copy' =>
                      _ <- store paramCopy copy' ;;
                      ret (get copy key)
                  | None => throw TypeError
                  end
              | None => ret (VStr segment)
              end ;;
      others <- substitute_merged paramCopy rest ;;
      ret (here :: others)
  end.

Definition buildMergedRequestInit (method : HTTPMethod)
    (basePath unboundPath : string) (params : jsarg)
    (requestInit : option RequestInit)
  : M (HTTPMethod * string * option RequestInit) :=
  given <- load params ;;
  paramCopy <- alloc (json_clone (if truthy given then given else VObj [])) ;;
  pathname <- resolve_pathname basePath unboundPath ;;
  urlSegments <- substitute_merged paramCopy (split_on "/" pathname) ;;
  let fullPath := basePath +:+ Array_join "/" urlSegments in
  if is_GET method then
    remaining <- load (Obj paramCopy) ;;
    ret (method, fullPath +:+ buildSearchString remaining, requestInit)
  else
    ret (method, fullPath,
         Some (obj_set (default [] requestInit) "body" (Obj paramCopy))).

(** The loop of [buildSplitRequestInit]: a segment that starts with [:]
    is replaced by [pathParameters[key]]. *)
Fixpoint substitute_split (pathParameters : jsarg) (segments : list string)
  : M (list value) :=
  match segments with
  | [] => ret []
  | segment :: rest =>
      here <- match path_key segment with
              | Some key =>
                  source <- load pathParameters ;;
                  ret (get source key)
              | None => ret (VStr segment)
              end ;;
      others <- substitute_split pathParameters rest ;;
      ret (here :: others)
  end.

Definition buildSplitRequestInit (method : HTTPMethod)
    (basePath unboundPath : string)
    (pathParameters queryParameters body : jsarg)
    (requestInit : option RequestInit)
  : M (HTTPMethod * string * option RequestInit) :=
  pathname <- resolve_pathname basePath unboundPath ;;
  given <- load pathParameters ;;
  urlSegments <- (if truthy given
                  then substitute_split pathParameters (split_on "/" pathname)
                  else ret (List.map VStr (split_on "/" pathname))) ;;
  query <- load queryParameters ;;
  let fullPath :=
    basePath +:+ Array_join "/" urlSegments +:+ buildSearchString query in
  ret (method, fullPath, Some (obj_set (default [] requestInit) "body" body)).

End Assembler.

(** ** The executor *)

(** A [Response] as the executor observes it: the status, the value of
    [headers.get('Content-Type')] ([None] for [null]), and what each of the
    four body readers would settle with. *)
Module Response.
Record t : Type := make {
  status : Z;
  content_type : option string;
  json : completion value;
  blob : completion string;
  formData : completion (list (string * string));
  text : completion string
}.

(** [response.ok]: the status is in the range 200 to 299. *)
Definition ok (r : t) : bool := ((200 <=? status r) && (status r <=? 299))%Z.
End Response.

(** The body a reader produced. *)
Inductive parsed : Type :=
  | Json (v : value)
  | Blob (data : string)
  | FormData (fields : list (string * string))
  | Text (s : string).

(** [processResponse]: a [switch] on the header value, compared with
    [===]. *)
Definition processResponse (rawResponse : Response.t) : completion parsed :=
  match Response.content_type rawResponse with
  | Some ct =>
      if String.eqb ct "application/json" then
        completion_map Json (Response.json rawResponse)
      else if String.eqb ct "application/pdf" then
        completion_map Blob (Response.blob rawResponse)
      else if String.eqb ct "multipart/form-data"
              || String.eqb ct "application/x-www-form-urlencoded" then
        completion_map FormData (Response.formData rawResponse)
      else completion_map Text (Response.text rawResponse)
  | None => completion_map Text (Response.text rawResponse)
  end.

(** [errorResponse?.[key]]: only a decoded JSON value can have the
    property. *)
Definition parsed_get (errorResponse : parsed) (key : string) : value :=
  match errorResponse with
  | Json v => get v key
  | Blob _ | FormData _ | Text _ => VUndefined
  end.

(** [new APIError(status, requestIdentifier, traceId, errorResponse)]:
    [errorResponse?.error || errorResponse?.message || status] is handed to
    [Error], which stores its [String(...)]. *)
Definition new_APIError (status : Z) (requestIdentifier traceId : string)
    (errorResponse : parsed) : APIError :=
  let message :=
    if truthy (parsed_get errorResponse "error")
    then parsed_get errorResponse "error"
    else if truthy (parsed_get errorResponse "message")
         then parsed_get errorResponse "message"
         else VNum status in
  {| name := "APIError";
     message := ToString message;
     status := status;
     requestIdentifier := requestIdentifier;
     traceId := traceId |}.

Definition method_name (method : HTTPMethod) : string :=
  match method with
  | GET => "GET" | POST => "POST" | PUT => "PUT"
  | DELETE => "DELETE" | PATCH => "PATCH"
  end.

Section Executor.

(** The module variable [uuid]: [None] while the generator is not
    loaded, [Some id] when it is and returns [id] for this call. *)
Variable uuid : option string.

(** [fetch(path, requestOptions)]: the response, or the transport's
    rejection. *)
Variable fetch : string -> RequestInit -> completion Response.t.

(** The options handed to [fetch]: [method], [credentials] and [mode],
    overridden by the caller's options other than [body] and [headers];
    [headers] stands for the record given to [new Headers(...)], the
    three defaults overridden by the caller's; [body], when truthy, is
    its JSON text. *)
Definition requestOptions (h : gmap loc value) (method : HTTPMethod)
    (traceId : string) (request : option RequestInit) : RequestInit :=
  let given := default [] request in
  let body := deref h (default (Val VUndefined) (obj_find given "body")) in
  let headers := deref h (default (Val VUndefined) (obj_find given "headers")) in
  let requestInit := obj_delete (obj_delete given "body") "headers" in
  let options :=
    obj_set
      (obj_assign [("method", Val (VStr (method_name method)));
                   ("credentials", Val (VStr "include"));
                   ("mode", Val (VStr "cors"))]
                  requestInit)
      "headers"
      (Val (VObj (obj_assign [("Accept", VStr "application/json");
                              ("Content-Type", VStr "application/json");
                              ("X-Trace", VStr traceId)]
                             (own_entries headers)))) in
  if truthy body then
    obj_set options "body"
      (Val (match JSON_stringify body with
            | Some text => VStr text
            | None => VUndefined
            end))
  else options.

(** [makeRequest], each [await] run to its settlement: the body is read
    before [response.ok] is looked at. *)
Definition makeRequest (h : gmap loc value) (method : HTTPMethod)
    (path : string) (request : option RequestInit) : completion parsed :=
  let traceId := default "" uuid in
  match fetch path (requestOptions h method traceId request) with
  | Throw e => Throw e
  | Return response =>
      match processResponse response with
      | Throw e => Throw e
      | Return responseBody =>
          if negb (Response.ok response) then
            Throw (Thrown_APIError
                     (new_APIError (Response.status response)
                                   (method_name method +:+ ":" +:+ path)
                                   traceId responseBody))
          else Return responseBody
      end
  end.

End Executor.

(** ** Notions used in the statements *)

(** An element that a sequence does not lose for being falsy: it is absent
    or truthy. The values this leaves out are the ones that are falsy
    without being absent: [false], the number zero and, among the numbers
    that are no integers, [NaN]. *)
Definition absent_or_truthy (v : value) : bool := is_absent v || truthy v.

(** One step of the [reduce] over the entries of a mapping. *)
Definition reduce_entry (f : value -> value)
    (accum : list (string * value)) (kv : string * value) :=
  let '(k, v) := kv in
  if is_absent v then accum else obj_set accum k (f v).

(** A value the sanitizer leaves alone and does not take for absent. *)
Definition settled (v : value) : Prop :=
  is_absent v = false /\ prepareParameters v = v.

(** The input sanitizes to nothing: to the null sentinel, or to a mapping
    or a sequence with nothing in it. *)
Definition sanitizes_to_nothing (params : value) : bool :=
  match prepareParameters params with
  | VNull | VObj [] | VArr [] => true
  | _ => false
  end.

(** The segments [buildSplitRequestInit] joins, as a function of the value
    of [pathParameters]. *)
Definition split_segments (pathParameters : value) (segments : list string)
  : list value :=
  if truthy pathParameters then
    List.map (fun segment => match path_key segment with
                             | Some key => get pathParameters key
                             | None => VStr segment
                             end) segments
  else List.map VStr segments.

(** The keys the [:name] segments of a path ask for. *)
Fixpoint path_keys (segments : list string) : list string :=
  match segments with
  | [] => []
  | segment :: rest =>
      match path_key segment with
      | Some key => key :: path_keys rest
      | None => path_keys rest
      end
  end.

(** The segments [buildMergedRequestInit] joins when the copy is a mapping:
    each key is looked up in what the earlier segments have left. *)
Fixpoint merged_segments (entries : list (string * value))
    (segments : list string) : list value :=
  match segments with
  | [] => []
  | segment :: rest =>
      match path_key segment with
      | Some key =>
          obj_get entries key :: merged_segments (obj_delete entries key) rest
      | None => VStr segment :: merged_segments entries rest
      end
  end.

(** The readers of a response body, and the table of the specification
    from declared content type to reader. *)
Inductive reader : Type := ReadJson | ReadBlob | ReadFormData | ReadText.

Definition read_with (k : reader) (r : Response.t) : completion parsed :=
  match k with
  | ReadJson => completion_map Json (Response.json r)
  | ReadBlob => completion_map Blob (Response.blob r)
  | ReadFormData => completion_map FormData (Response.formData r)
  | ReadText => completion_map Text (Response.text r)
  end.

Definition content_type_table : list (string * reader) :=
  [("application/json", ReadJson);
   ("application/pdf", ReadBlob);
   ("multipart/form-data", ReadFormData);
   ("application/x-www-form-urlencoded", ReadFormData)].

Definition reader_for (content_type : option string) : reader :=
  match content_type with
  | Some ct => default ReadText (obj_find content_type_table ct)
  | None => ReadText
  end.



(** ** Induction on parameter structures *)

Section value_induction.
Variable P : value -> Prop.
Hypothesis P_undefined : P VUndefined.
Hypothesis P_null : P VNull.
Hypothesis P_bool : forall b, P (VBool b).
Hypothesis P_num : forall n, P (VNum n).
Hypothesis P_str : forall s, P (VStr s).
Hypothesis P_date : forall iso text, P (VDate iso text).
Hypothesis P_arr : forall elems, Forall P elems -> P (VArr elems).
Hypothesis P_obj :
  forall entries, Forall (fun kv => P (snd kv)) entries -> P (VObj entries).

Fixpoint value_nested_ind (v : value) : P v :=
  match v with
  | VUndefined => P_undefined
  | VNull => P_null
  | VBool b => P_bool b
  | VNum n => P_num n
  | VStr s => P_str s
  | VDate iso text => P_date iso text
  | VArr elems =>
      P_arr elems
        ((fix go (l : list value) : Forall P l :=
            match l with
            | [] => List.Forall_nil P
            | e :: l' => List.Forall_cons P e l' (value_nested_ind e) (go l')
            end) elems)
  | VObj entries =>
      P_obj entries
        ((fix go (l : list (string * value))
            : Forall (fun kv => P (snd kv)) l :=
            match l with
            | [] => List.Forall_nil _
            | kv :: l' =>
                List.Forall_cons (fun kv => P (snd kv)) kv l'
                  (value_nested_ind (snd kv)) (go l')
            end) entries)
  end.
End value_induction.

(** ** The cancellable wrapper *)

(** The whole store, as a computation. *)
Definition get_store : M (gmap loc value) := fun h => (Return h, h).

Section Cancellable.

Variable uuid : option string.
Variable fetch : string -> RequestInit -> completion Response.t.

(** [makeCancellableRequest]: a new [AbortController], whose [signal] is
    another new object (neither has own enumerable properties), and
    [makeRequest] on [{ ...request, signal: controller.signal }]. The first
    component is what the returned promise settles with; what an abort does
    to the transport is [fetch]'s business. *)
Definition makeCancellableRequest (method : HTTPMethod) (path : string)
    (request : option RequestInit) : M (completion parsed * loc) :=
  controller <- alloc (VObj []) ;;
  signal <- alloc (VObj []) ;;
  h <- get_store ;;
  ret (makeRequest uuid fetch h method path
         (Some (obj_set (default [] request) "signal" (Obj signal))),
       controller).

End Cancellable.

(** ** Further notions used in the statements *)

(** What the sanitizer produces: no [undefined] and no empty string, in a
    sequence only truthy elements, in a mapping no absent value and no key
    twice, and so on inside. *)
Fixpoint clean (v : value) : bool :=
  match v with
  | VUndefined => false
  | VStr s => negb (String.eqb s "")
  | VArr elems => forallb (fun e => truthy e && clean e) elems
  | VObj entries =>
      bool_decide (NoDup (List.map fst entries))
      && forallb (fun kv => negb (is_absent (snd kv)) && clean (snd kv)) entries
  | VNull | VBool _ | VNum _ | VDate _ _ => true
  end.

(** The leaves of a flat parameter record: scalars and dates. *)
Definition is_leaf (v : value) : bool :=
  match v with
  | VArr _ | VObj _ => false
  | _ => true
  end.

(** The text [qs] writes for a leaf: a date's [toISOString()], any other
    leaf's [String(x)]. *)
Definition leaf_text (v : value) : string :=
  match v with
  | VDate iso _ => iso
  | _ => ToString v
  end.

(** The text [buildSearchString] hands to [qs] for a value of a record
    that is not a sequence: the JSON text of its sanitized form for a
    mapping, the text of the leaf otherwise. *)
Definition entry_text (v : value) : string :=
  match v with
  | VObj _ => default "" (JSON_stringify (prepareParameters v))
  | _ => leaf_text v
  end.

Definition is_sequence (v : value) : bool :=
  match v with VArr _ => true | _ => false end.

(** Every character of a string passes a test. *)
Fixpoint string_forall (p : ascii -> bool) (s : string) : bool :=
  match s with
  | EmptyString => true
  | String c rest => p c && string_forall p rest
  end.

(** The characters [qs] writes for a key or a value: the unreserved ones
    and the percent sign of an escape. *)
Definition qs_safe (c : ascii) : bool :=
  qs_unreserved (N_of_ascii c) || Ascii.eqb c "%".

(** The characters of a pair: the safe ones and [=]. *)
Definition pair_char (c : ascii) : bool := qs_safe c || Ascii.eqb c "=".

(** The characters of a query string after its [?]: the safe ones and the
    two separators. *)
Definition query_char (c : ascii) : bool :=
  qs_safe c || Ascii.eqb c "=" || Ascii.eqb c "&".



(** ** The bounds of the data model *)

(** The numbers whose [String(n)] and JSON text is the decimal numeral:
    the safe integers, of magnitude at most [2^53 - 1]. *)
Definition is_safe_integer (n : Z) : bool :=
  (Z.abs n <=? 9007199254740991)%Z.

(** Every number in a structure is a safe integer. *)
Fixpoint safe_numbers (v : value) : bool :=
  match v with
  | VNum n => is_safe_integer n
  | VArr elems => forallb safe_numbers elems
  | VObj entries => forallb (fun kv => safe_numbers (snd kv)) entries
  | VUndefined | VNull | VBool _ | VStr _ | VDate _ _ => true
  end.

(** No date anywhere in a structure. *)
Fixpoint no_date (v : value) : bool :=
  match v with
  | VDate _ _ => false
  | VArr elems => forallb no_date elems
  | VObj entries => forallb (fun kv => no_date (snd kv)) entries
  | VUndefined | VNull | VBool _ | VNum _ | VStr _ => true
  end.

(** The names every plain object inherits from [Object.prototype]: reading
    one of them on an object that has no property of its own by that name
    gives the inherited member, not [undefined]. *)
Definition Object_prototype_names : list string :=
  ["constructor"; "hasOwnProperty"; "isPrototypeOf"; "propertyIsEnumerable";
   "toLocaleString"; "toString"; "valueOf"; "__proto__";
   "__defineGetter__"; "__defineSetter__";
   "__lookupGetter__"; "__lookupSetter__"].

Definition is_inherited (key : string) : bool :=
  existsb (String.eqb key) Object_prototype_names.

(** ** Header names *)

(** A header name in lower case, as the [Headers] object compares names:
    the letters [A] to [Z] mapped to [a] to [z]. *)
Definition ascii_lowercase (c : ascii) : ascii :=
  let n := N_of_ascii c in
  if ((65 <=? n) && (n <=? 90))%N then ascii_of_N (n + 32) else c.

Fixpoint byte_lowercase (s : string) : string :=
  match s with
  | EmptyString => EmptyString
  | String c rest => String (ascii_lowercase c) (byte_lowercase rest)
  end.

(** Two names that are the same header for the [Headers] object but not
    the same key of a record: equal in lower case without being equal. *)
Definition case_variant (a b : string) : bool :=
  String.eqb (byte_lowercase a) (byte_lowercase b) && negb (String.eqb a b).

(** The names of the default headers of [makeRequest]. *)
Definition default_header_names : list string :=
  ["Accept"; "Content-Type"; "X-Trace"].


(** ** The two parts of a mapping of parameters *)


(** ** The URL parser on plain absolute paths *)

(** [s.startsWith(p)], with the rest of [s] when it does. *)
Fixpoint strip_prefix (p s : string) : option string :=
  match p, s with
  | EmptyString, _ => Some s
  | String a p', String b s' =>
      if Ascii.eqb a b then strip_prefix p' s' else None
  | String _ _, EmptyString => None
  end.

Definition is_lower_alpha (c : ascii) : bool :=
  let n := N_of_ascii c in ((97 <=? n) && (n <=? 122))%N.

(** A base of the form [http://host] or [https://host], the host being
    lower-case letters. *)
Definition is_plain_origin (base : string) : bool :=
  match strip_prefix "https://" base, strip_prefix "http://" base with
  | Some host, _ | None, Some host =>
      negb (String.eqb host "") && string_forall is_lower_alpha host
  | None, None => false
  end.

(** The characters of a path that the parser copies as they are and that
    start neither a query nor a fragment: the unreserved ones, [:] and the
    separator. *)
Definition is_plain_path_char (c : ascii) : bool :=
  qs_unreserved (N_of_ascii c) || Ascii.eqb c ":" || Ascii.eqb c "/".

(** The path state of the URL parser over the segments of the input: a
    [..] segment removes the last segment of the path so far, a [.]
    segment adds nothing, either leaves an empty segment at the end of the
    input, and any other segment is appended. *)
Fixpoint path_state (segments path : list string) : list string :=
  match segments with
  | [] => path
  | segment :: rest =>
      let close (p : list string) :=
        match rest with [] => p ++ [""] | _ :: _ => p end in
      if String.eqb segment ".." then path_state rest (close (removelast path))
      else if String.eqb segment "." then path_state rest (close path)
      else path_state rest (path ++ [segment])
  end.

(** [new URL(input, base).pathname] for a base [http(s)://host] and an
    input that is an absolute path of plain characters (one [/], then no
    second [/] at once): the segments after the first [/] go through the
    path state and are written out after a [/], joined by [/]. On any
    other pair the function answers [None]; it stands for the parser on
    the pairs described only. *)
Definition URL_resolve_plain_path (input base : string) : option string :=
  match input with
  | String "/" rest =>
      if is_plain_origin base
         && string_forall is_plain_path_char rest
         && negb (match rest with String "/" _ => true | _ => false end)
      then Some ("/" +:+ join_strings "/" (path_state (split_on "/" rest) []))
      else None
  | _ => None
  end.

(** * Theorems *)

(** ** The platform functions on sample inputs *)

Example split_on_path :
  split_on "/" "/users/:id" = [""; "users"; ":id"]
  /\ split_on "/" "" = [""]
  /\ split_on "/" "a//b/" = ["a"; ""; "b"; ""].
Proof. by repeat split. Qed.

Example ToString_nested_array :
  ToString (VArr [VNum 1; VArr [VNum 2; VStr "x"]; VNull; VObj []])
  = "1,2,x,,[object Object]".
Proof. reflexivity. Qed.

Example JSON_stringify_sample :
  JSON_stringify (VObj [("n", VNum (-5)); ("u", VUndefined);
                        ("l", VArr [VUndefined; VBool true]);
                        ("d", VDate "2024-02-29T00:00:00.000Z" "Thu Feb 29 2024")])
  = Some ("{" +:+ json_quote "n" +:+ ":-5,"
          +:+ json_quote "l" +:+ ":[null,true],"
          +:+ json_quote "d" +:+ ":" +:+ json_quote "2024-02-29T00:00:00.000Z"
          +:+ "}").
Proof. reflexivity. Qed.

Example qs_stringify_nested :
  qs_stringify (VObj [("a", VObj [("b", VNum 1); ("c", VNull)]);
                      ("t", VArr [VStr "x y"; VStr "z"]);
                      ("u", VUndefined)])
  = "?a.b=1&t=x%20y&t=z".
Proof. reflexivity. Qed.

Example buildSearchString_scalars :
  buildSearchString (VObj [("q", VStr "a&b"); ("page", VNum 2);
                           ("exact", VBool false); ("skip", VStr "")])
  = "?q=a%26b&page=2&exact=false".
Proof. reflexivity. Qed.

Example URL_resolve_plain_path_samples :
  URL_resolve_plain_path "/users/:id" "https://h" = Some "/users/:id"
  /\ URL_resolve_plain_path "/a/./b/../c" "http://host" = Some "/a/c"
  /\ URL_resolve_plain_path "/users/:id/.." "https://h" = Some "/users/"
  /\ URL_resolve_plain_path "/.." "https://h" = Some "/".
Proof. by repeat split. Qed.

Example byte_lowercase_samples :
  byte_lowercase "X-Trace" = "x-trace"
  /\ case_variant "accept" "Accept" = true
  /\ case_variant "Accept" "Accept" = false
  /\ is_inherited "toString" = true
  /\ is_inherited "id" = false.
Proof. by repeat split. Qed.

Example URL_has_scheme_samples :
  URL_has_scheme "/api/v1" = false
  /\ URL_has_scheme "api/v1" = false
  /\ URL_has_scheme "//example.org/api" = false
  /\ URL_has_scheme "https://example.org/api/v1" = true.
Proof. by repeat split. Qed.

(** ** The sanitizer on sequences and mappings *)

(** The [reduce] over a sequence keeps, in order, the prepared elements
    that are truthy. *)
Lemma reduce_push (f : value -> value) (elems acc : list value) :
  fold_left (fun accum curr =>
               let prepared := f curr in
               if truthy prepared then accum ++ [prepared] else accum)
            elems acc
  = acc ++ List.filter truthy (List.map f elems).
Proof.
  revert acc. induction elems as [|e elems IH]; intros acc; simpl.
  - by rewrite app_nil_r.
  - rewrite IH. destruct (truthy (f e)); simpl; [|done].
    by rewrite <- app_assoc.
Qed.

Lemma prepareParameters_VArr (elems : list value) :
  prepareParameters (VArr elems)
  = VArr (List.filter truthy (List.map prepareParameters elems)).
Proof. simpl. by rewrite reduce_push. Qed.

(** The values that sanitize to the null sentinel are the absent ones. *)
Lemma prepareParameters_null (v : value) :
  prepareParameters v = VNull <-> is_absent v = true.
Proof. destruct v as [| | | |[|]| | |]; simpl; split; done. Qed.

Lemma prepared_not_absent (v : value) :
  is_absent v = false -> is_absent (prepareParameters v) = false.
Proof. destruct v as [| | | |[|]| | |]; simpl; done. Qed.

Lemma prepared_truthy (v : value) :
  absent_or_truthy v = true ->
  truthy (prepareParameters v) = negb (is_absent v).
Proof.
  destruct v as [| |[|]|[| |]|[|]| | |]; done.
Qed.

(** Keys of a mapping under [obj_set]. *)
Lemma obj_set_fresh {V : Type} (entries : list (string * V)) key v :
  key ∉ List.map fst entries -> obj_set entries key v = entries ++ [(key, v)].
Proof.
  induction entries as [|[k w] entries IH]; simpl; intros Hk; [done|].
  apply not_elem_of_cons in Hk as [Hne Hk].
  destruct (String.eqb_spec k key) as [->|_]; [done|].
  by rewrite IH.
Qed.

Lemma obj_set_keys {V : Type} (entries : list (string * V)) key v k :
  k ∈ List.map fst (obj_set entries key v) ->
  k ∈ List.map fst entries \/ k = key.
Proof.
  induction entries as [|[k' w] entries IH]; simpl.
  - intros ->%list_elem_of_singleton. by right.
  - destruct (String.eqb_spec k' key) as [->|Hne]; simpl.
    + intros Hin. by left.
    + intros [->|Hin]%elem_of_cons.
      * left. apply elem_of_cons. by left.
      * destruct (IH Hin) as [?|?]; [left|by right].
        apply elem_of_cons. by right.
Qed.

Lemma obj_set_NoDup {V : Type} (entries : list (string * V)) key v :
  NoDup (List.map fst entries) -> NoDup (List.map fst (obj_set entries key v)).
Proof.
  induction entries as [|[k w] entries IH]; simpl; intros Hnd.
  - apply NoDup_singleton.
  - apply NoDup_cons in Hnd as [Hk Hnd].
    destruct (String.eqb_spec k key) as [->|Hne]; simpl.
    + by apply NoDup_cons.
    + apply NoDup_cons. split; [|by apply IH].
      intros [?|?]%obj_set_keys; done.
Qed.

Lemma obj_set_Forall {V : Type} (Q : string * V -> Prop) entries key v :
  Forall Q entries -> Q (key, v) -> Forall Q (obj_set entries key v).
Proof.
  intros Hall Hv. induction Hall as [|[k w] entries Hkw Hall IH]; simpl.
  - by constructor.
  - destruct (String.eqb k key); by constructor.
Qed.

Lemma prepareParameters_VObj (entries : list (string * value)) :
  prepareParameters (VObj entries)
  = VObj (fold_left (reduce_entry prepareParameters) entries []).
Proof. reflexivity. Qed.

Lemma reduce_entries_invariant (entries acc : list (string * value)) :
  Forall (fun kv => prepareParameters (prepareParameters (snd kv))
                    = prepareParameters (snd kv)) entries ->
  NoDup (List.map fst acc) -> Forall (fun kv => settled (snd kv)) acc ->
  let out := fold_left (reduce_entry prepareParameters) entries acc in
  NoDup (List.map fst out) /\ Forall (fun kv => settled (snd kv)) out.
Proof.
  intros Hall. revert acc.
  induction Hall as [|[k v] entries Hv Hall IH]; intros acc Hnd Hacc; simpl.
  - done.
  - destruct (is_absent v) eqn:Habs; [by apply IH|].
    apply IH.
    + by apply obj_set_NoDup.
    + apply obj_set_Forall; [done|]. split; [|done].
      by apply prepared_not_absent.
Qed.

Lemma reduce_entries_settled (entries acc : list (string * value)) :
  NoDup (List.map fst acc ++ List.map fst entries) ->
  Forall (fun kv => settled (snd kv)) entries ->
  fold_left (reduce_entry prepareParameters) entries acc = acc ++ entries.
Proof.
  revert acc. induction entries as [|[k v] entries IH]; intros acc Hnd Hall; simpl.
  - by rewrite app_nil_r.
  - apply Forall_cons in Hall as [[Habs Hfix] Hall]. simpl in *.
    rewrite Habs, Hfix.
    rewrite obj_set_fresh.
    + rewrite IH; [by rewrite <- app_assoc| |done].
      rewrite map_app. simpl. by rewrite <- app_assoc.
    + apply NoDup_app in Hnd as (_ & Hdisj & _).
      intros Hin. apply (Hdisj k Hin). apply elem_of_cons; by left.
Qed.

Lemma filter_prepared_settled (elems : list value) :
  Forall (fun e => prepareParameters (prepareParameters e) = prepareParameters e)
         elems ->
  let kept := List.filter truthy (List.map prepareParameters elems) in
  List.filter truthy (List.map prepareParameters kept) = kept.
Proof.
  induction 1 as [|e elems He Hall IH]; simpl; [done|].
  destruct (truthy (prepareParameters e)) eqn:Ht; simpl; [|done].
  rewrite He, Ht. f_equal. exact IH.
Qed.

(** ** Query strings *)

(** C1. For [{ tags: ['a','b'] }] the module does not produce the
    repeated-key encoding: the array is an object for [typeof], so it is
    replaced by its JSON text before [qs] sees it, and the result is
    [?tags=] followed by the percent-encoded text [["a","b"]]. Handed the
    sanitized structure as it is, [qs] with the module's options would
    produce [?tags=a&tags=b]. *)
Theorem buildSearchString_array_is_json_text :
  buildSearchString (VObj [("tags", VArr [VStr "a"; VStr "b"])])
  = "?tags=%5B%22a%22%2C%22b%22%5D"
  /\ qs_stringify (prepareParameters (VObj [("tags", VArr [VStr "a"; VStr "b"])]))
     = "?tags=a&tags=b".
Proof. split; vm_compute; reflexivity. Qed.

(** C2, as the code has it. In a sequence whose elements are each absent
    (the empty string, [null], [undefined]) or truthy, so that none is falsy
    without being absent as [0], [NaN] and [false] are, exactly the absent
    elements are dropped and the others are kept, sanitized, in their order;
    an object element is kept whatever it sanitizes to, the empty mapping
    included. *)
Theorem prepareParameters_sequence (elems : list value) :
  Forall (fun e => absent_or_truthy e = true) elems ->
  prepareParameters (VArr elems)
  = VArr (List.map prepareParameters
            (List.filter (fun e => negb (is_absent e)) elems))
  /\ forall entries,
       In (VObj entries) elems ->
       exists kept, prepareParameters (VArr elems) = VArr kept
                    /\ In (prepareParameters (VObj entries)) kept.
Proof.
  intros Hscalars.
  assert (prepareParameters (VArr elems)
          = VArr (List.map prepareParameters
                    (List.filter (fun e => negb (is_absent e)) elems))) as Heq.
  { rewrite prepareParameters_VArr. f_equal.
    induction Hscalars as [|e elems He Hall IH]; simpl; [done|].
    rewrite (prepared_truthy e He).
    destruct (is_absent e); simpl; by rewrite IH. }
  split; [exact Heq|].
  intros entries Hin. eexists. split; [exact Heq|].
  apply in_map, filter_In. by split.
Qed.

Lemma prepareParameters_sequence_witness :
  prepareParameters
    (VArr [VStr ""; VStr "x"; VNull; VObj [("k", VUndefined)]; VNum 7])
  = VArr [VStr "x"; VObj []; VNum 7].
Proof.
  refine (eq_trans
            (proj1 (prepareParameters_sequence
                      [VStr ""; VStr "x"; VNull; VObj [("k", VUndefined)]; VNum 7]
                      _))
            eq_refl).
  repeat constructor.
Defined.

(** C2 as stated fails: an object that sanitizes to the empty mapping stays
    in the sequence, and the scalars [0] and [false], which do not sanitize
    to absent, are dropped: the sequence keeps the elements whose sanitized
    form is truthy. *)
Lemma prepareParameters_sequence_counterexample :
  prepareParameters (VObj [("a", VStr "")]) = VObj []
  /\ prepareParameters (VArr [VObj [("a", VStr "")]]) = VArr [VObj []]
  /\ prepareParameters (VNum 0) = VNum 0
  /\ prepareParameters (VArr [VNum 0; VBool false; VStr "x"]) = VArr [VStr "x"].
Proof. repeat split. Qed.

(** C3. Sanitizing is idempotent. *)
Theorem prepareParameters_idempotent (P : value) :
  prepareParameters (prepareParameters P) = prepareParameters P.
Proof.
  induction P as [| | | |s| |elems IH|entries IH] using value_nested_ind;
    try reflexivity.
  - by destruct s.
  - rewrite !prepareParameters_VArr. f_equal.
    by apply filter_prepared_settled.
  - rewrite !prepareParameters_VObj. f_equal.
    destruct (reduce_entries_invariant entries [] IH) as [Hnd Hall];
      [apply NoDup_nil_2|constructor|].
    by apply (reduce_entries_settled _ []).
Qed.

(** ** Empty and prefixed results *)

Lemma qs_stringify_prefixed (obj : value) :
  qs_stringify obj = "" \/ exists rest, qs_stringify obj = String "?" rest.
Proof.
  unfold qs_stringify.
  destruct obj; try (by left);
    match goal with
    | |- context [String.eqb ?j ""] => destruct (String.eqb j "")
    end; eauto.
Qed.

(** C4. [buildSearchString] is empty for [{}], [undefined] and [null] and
    for every input that sanitizes to nothing, and a result that is not
    empty starts with [?]. *)
Theorem buildSearchString_empty_or_prefixed (params : value) :
  (buildSearchString (VObj []) = ""
   /\ buildSearchString VUndefined = ""
   /\ buildSearchString VNull = "")
  /\ (sanitizes_to_nothing params = true -> buildSearchString params = "")
  /\ (buildSearchString params = ""
      \/ exists rest, buildSearchString params = String "?" rest).
Proof.
  split; [by repeat split|]. split.
  - unfold sanitizes_to_nothing, buildSearchString.
    destruct (prepareParameters params) as [| | | | | |[|]|[|]]; done.
  - unfold buildSearchString.
    destruct (negb (truthy (prepareParameters params))); [by left|].
    apply qs_stringify_prefixed.
Qed.

Lemma buildSearchString_empty_or_prefixed_witness :
  buildSearchString (VObj [("q", VStr ""); ("page", VNull)]) = "".
Proof.
  apply (proj1 (proj2 (buildSearchString_empty_or_prefixed
                         (VObj [("q", VStr ""); ("page", VNull)])))).
  reflexivity.
Defined.

(** ** Paths *)

Lemma split_on_nonempty (sep : ascii) (s : string) : split_on sep s <> [].
Proof.
  destruct s as [|c s]; simpl; [done|].
  destruct (Ascii.eqb c sep); [done|]. by destruct (split_on sep s).
Qed.

(** Joining the pieces of a split gives the string back. *)
Lemma join_split_on (sep : ascii) (s : string) :
  join_strings (String sep "") (split_on sep s) = s.
Proof.
  induction s as [|c s IH]; simpl; [done|].
  destruct (Ascii.eqb_spec c sep) as [->|Hne].
  - pose proof (split_on_nonempty sep s) as Hnil.
    destruct (split_on sep s) as [|piece pieces]; [done|].
    simpl. by rewrite <- IH.
  - pose proof (split_on_nonempty sep s) as Hnil.
    destruct (split_on sep s) as [|piece pieces]; [done|].
    rewrite <- IH. by destruct pieces.
Qed.

Lemma Array_join_strings (sep : string) (pieces : list string) :
  Array_join sep (List.map VStr pieces) = join_strings sep pieces.
Proof.
  unfold Array_join. f_equal. rewrite List.map_map. apply List.map_id.
Qed.

(** ** Request assembly *)

Section AssemblerFacts.
Context (URL_resolve : string -> string -> option string).

(** Resolving the path neither reads nor writes the store. *)
Lemma resolve_pathname_pure basePath unboundPath (h : gmap loc value) :
  snd (resolve_pathname URL_resolve basePath unboundPath h) = h.
Proof.
  unfold resolve_pathname, URL_pathname.
  destruct (negb (String.eqb basePath "")); [|done].
  destruct (URL_has_scheme basePath); [|done].
  by destruct (URL_resolve unboundPath basePath).
Qed.

(** A base path without a scheme makes the [URL] constructor throw. *)
Lemma resolve_pathname_relative_base basePath unboundPath (h : gmap loc value) :
  basePath <> "" -> URL_has_scheme basePath = false ->
  resolve_pathname URL_resolve basePath unboundPath h = (Throw TypeError, h).
Proof.
  intros Hne Hscheme. unfold resolve_pathname, URL_pathname.
  destruct (String.eqb_spec basePath "") as [?|_]; [done|].
  simpl. by rewrite Hscheme.
Qed.

Lemma resolve_pathname_no_base unboundPath (h : gmap loc value) :
  resolve_pathname URL_resolve "" unboundPath h = (Return unboundPath, h).
Proof. reflexivity. Qed.

(** The outcome of resolving the path is the same in every store. *)
Lemma resolve_pathname_at basePath unboundPath (h h' : gmap loc value) pathname :
  fst (resolve_pathname URL_resolve basePath unboundPath h) = Return pathname ->
  resolve_pathname URL_resolve basePath unboundPath h' = (Return pathname, h').
Proof.
  unfold resolve_pathname, URL_pathname.
  destruct (negb (String.eqb basePath "")); [|by intros [= ->]].
  destruct (URL_has_scheme basePath); [|done].
  destruct (URL_resolve unboundPath basePath); [by intros [= ->]|done].
Qed.

Lemma substitute_split_spec pathParameters segments (h : gmap loc value) :
  substitute_split pathParameters segments h
  = (Return (List.map (fun segment =>
                         match path_key segment with
                         | Some key => get (deref h pathParameters) key
                         | None => VStr segment
                         end) segments), h).
Proof.
  induction segments as [|segment segments IH]; [done|].
  cbn [substitute_split List.map]. unfold bind at 1.
  destruct (path_key segment) as [key|]; unfold bind, load, ret;
    by rewrite IH.
Qed.

(** The split assembler as a function of the store it is run in: the
    store is left as it was, and the result is built from the resolved
    path, the value of [pathParameters], the query parameters and the
    body argument. *)
Lemma buildSplitRequestInit_spec method basePath unboundPath
    pathParameters queryParameters body requestInit (h : gmap loc value) :
  buildSplitRequestInit URL_resolve method basePath unboundPath
    pathParameters queryParameters body requestInit h
  = match fst (resolve_pathname URL_resolve basePath unboundPath h) with
    | Return pathname =>
        (Return (method,
                 basePath
                 +:+ Array_join "/" (split_segments (deref h pathParameters)
                                                    (split_on "/" pathname))
                 +:+ buildSearchString (deref h queryParameters),
                 Some (obj_set (default [] requestInit) "body" body)), h)
    | Throw e => (Throw e, h)
    end.
Proof.
  unfold buildSplitRequestInit. unfold bind at 1.
  pose proof (resolve_pathname_pure basePath unboundPath h) as Hpure.
  destruct (resolve_pathname URL_resolve basePath unboundPath h)
    as [[pathname|e] h'] eqn:Hres; simpl in Hpure; subst h'; [|done].
  simpl fst. unfold bind, load, ret, split_segments.
  destruct (truthy (deref h pathParameters)); [|done].
  by rewrite substitute_split_spec.
Qed.

(** C7. The split assembler leaves the store as it found it, whatever the
    call and whether it returns or throws, so the object behind
    [pathParameters] is unchanged after it; and when it returns, the
    query string is the one built from [queryParameters] alone and the
    [body] option is the [body] argument itself. *)
Theorem buildSplitRequestInit_frame method basePath unboundPath
    pathParameters queryParameters body requestInit (h : gmap loc value) :
  let out := buildSplitRequestInit URL_resolve method basePath unboundPath
               pathParameters queryParameters body requestInit h in
  snd out = h
  /\ deref (snd out) pathParameters = deref h pathParameters
  /\ forall m url init,
       fst out = Return (m, url, init) ->
       m = method
       /\ (exists pathname,
          fst (resolve_pathname URL_resolve basePath unboundPath h)
          = Return pathname
          /\ url = basePath
                   +:+ Array_join "/"
                         (split_segments (deref h pathParameters)
                                         (split_on "/" pathname))
                   +:+ buildSearchString (deref h queryParameters))
       /\ init = Some (obj_set (default [] requestInit) "body" body).
Proof.
  cbv zeta. rewrite buildSplitRequestInit_spec.
  destruct (fst (resolve_pathname URL_resolve basePath unboundPath h))
    as [pathname|e]; simpl.
  - split_and!; [done..|]. intros m url init [= <- <- <-]. eauto.
  - split_and!; done.
Qed.

(** C10, as the code has it. With [pathParameters] falsy (omitted,
    [undefined], [null]) no segment is substituted: the returned URL is
    the base path, then the path that the code splits, with every segment
    as it is there, the ones that start with [:] included, then the query
    string. The path that is split is the template itself when the base
    path is empty, and otherwise the pathname that [new URL(template,
    basePath)] gives, which need not have the segments of the template. *)
Theorem buildSplitRequestInit_no_path_parameters method basePath unboundPath
    pathParameters queryParameters body requestInit (h : gmap loc value)
    pathname :
  truthy (deref h pathParameters) = false ->
  fst (resolve_pathname URL_resolve basePath unboundPath h) = Return pathname ->
  buildSplitRequestInit URL_resolve method basePath unboundPath
    pathParameters queryParameters body requestInit h
  = (Return (method,
             basePath +:+ pathname
             +:+ buildSearchString (deref h queryParameters),
             Some (obj_set (default [] requestInit) "body" body)), h)
  /\ (basePath = "" -> pathname = unboundPath)
  /\ (basePath <> "" ->
      URL_has_scheme basePath = true
      /\ URL_resolve unboundPath basePath = Some pathname).
Proof.
  intros Hfalsy Hres. split_and!.
  - rewrite buildSplitRequestInit_spec, Hres.
    unfold split_segments. rewrite Hfalsy.
    by rewrite Array_join_strings, join_split_on.
  - intros ->. by injection Hres.
  - intros Hbase. revert Hres. unfold resolve_pathname, URL_pathname.
    destruct (String.eqb_spec basePath "") as [|_]; [done|]. cbn [negb].
    destruct (URL_has_scheme basePath); [|done].
    destruct (URL_resolve unboundPath basePath); [|done].
    by intros [= ->].
Qed.

(** The loop of the merged assembler on a copy that is a mapping. *)
Lemma substitute_merged_object paramCopy segments entries
    (h : gmap loc value) :
  h !! paramCopy = Some (VObj entries) ->
  substitute_merged paramCopy segments h
  = (Return (merged_segments entries segments),
     <[paramCopy := VObj (fold_left obj_delete (path_keys segments) entries)]> h).
Proof.
  revert entries h.
  induction segments as [|segment segments IH]; intros entries h Hcopy.
  - simpl. unfold ret. by rewrite insert_id.
  - cbn [substitute_merged merged_segments path_keys]. unfold bind at 1.
    destruct (path_key segment) as [key|].
    + unfold bind at 1, load, deref. rewrite Hcopy. simpl.
      unfold bind at 1, store, ret. unfold bind.
      rewrite (IH (obj_delete entries key)); [|by rewrite lookup_insert_eq].
      by rewrite insert_insert_eq.
    + unfold ret at 1, bind. by rewrite (IH entries).
Qed.

(** Away from [GET], with the path resolved and parameters that are a
    mapping (or falsy, which stands for the empty mapping): the URL is
    the base path and the substituted path with nothing appended, and
    the [body] option refers to a new object, the copy of the parameters
    without the keys the path asked for. *)
Lemma buildMergedRequestInit_non_GET method basePath unboundPath params
    requestInit (h : gmap loc value) pathname entries :
  is_GET method = false ->
  fst (resolve_pathname URL_resolve basePath unboundPath h) = Return pathname ->
  json_clone (if truthy (deref h params) then deref h params else VObj [])
  = VObj entries ->
  let paramCopy := fresh (dom h) in
  buildMergedRequestInit URL_resolve method basePath unboundPath params
    requestInit h
  = (Return (method,
             basePath
             +:+ Array_join "/" (merged_segments entries (split_on "/" pathname)),
             Some (obj_set (default [] requestInit) "body" (Obj paramCopy))),
     <[paramCopy := VObj (fold_left obj_delete
                            (path_keys (split_on "/" pathname)) entries)]> h).
Proof.
  intros Hmethod Hres Hcopy paramCopy.
  unfold buildMergedRequestInit.
  unfold bind at 1, load. unfold bind at 1, alloc. fold paramCopy.
  rewrite Hcopy. unfold bind at 1.
  rewrite (resolve_pathname_at _ _ h _ pathname Hres).
  unfold bind at 1.
  rewrite (substitute_merged_object _ _ entries);
    [|by rewrite lookup_insert_eq].
  rewrite insert_insert_eq, Hmethod. reflexivity.
Qed.

(** On [GET], under the same conditions: the query string is built from
    what the path has left of the copy, and the options are the ones the
    caller gave. *)
Lemma buildMergedRequestInit_GET method basePath unboundPath params
    requestInit (h : gmap loc value) pathname entries :
  is_GET method = true ->
  fst (resolve_pathname URL_resolve basePath unboundPath h) = Return pathname ->
  json_clone (if truthy (deref h params) then deref h params else VObj [])
  = VObj entries ->
  let remaining :=
    VObj (fold_left obj_delete (path_keys (split_on "/" pathname)) entries) in
  buildMergedRequestInit URL_resolve method basePath unboundPath params
    requestInit h
  = (Return (method,
             (basePath
              +:+ Array_join "/" (merged_segments entries (split_on "/" pathname)))
             +:+ buildSearchString remaining,
             requestInit),
     <[fresh (dom h) := remaining]> h).
Proof.
  intros Hmethod Hres Hcopy remaining.
  unfold buildMergedRequestInit.
  unfold bind at 1, load. unfold bind at 1, alloc.
  rewrite Hcopy. unfold bind at 1.
  rewrite (resolve_pathname_at _ _ h _ pathname Hres).
  unfold bind at 1.
  rewrite (substitute_merged_object _ _ entries);
    [|by rewrite lookup_insert_eq].
  rewrite insert_insert_eq, Hmethod.
  unfold bind, load, ret, deref. by rewrite lookup_insert_eq.
Qed.

(** The loop writes to the copy and to nothing else. *)
Lemma substitute_merged_frame paramCopy segments (h : gmap loc value) l :
  l <> paramCopy ->
  snd (substitute_merged paramCopy segments h) !! l = h !! l.
Proof.
  intros Hl. revert h.
  induction segments as [|segment segments IH]; intros h; [done|].
  cbn [substitute_merged]. unfold bind at 1.
  destruct (path_key segment) as [key|].
  - unfold bind at 1, load.
    destruct (delete_property (deref h (Obj paramCopy)) key) as [copy'|];
      [|done].
    unfold bind at 1, store, ret. unfold bind.
    specialize (IH (<[paramCopy := copy']> h)).
    destruct (substitute_merged paramCopy segments (<[paramCopy := copy']> h))
      as [[others|e] h'']; simpl in *;
      by rewrite IH, lookup_insert_ne.
  - unfold ret at 1, bind. specialize (IH h).
    by destruct (substitute_merged paramCopy segments h) as [[others|e] h''].
Qed.

(** X8. The merged assembler works on its own copy: every object that was in
    the store before the call is unchanged after it, whatever the outcome. *)
Lemma buildMergedRequestInit_frame method basePath unboundPath params
    requestInit (h : gmap loc value) :
  h ⊆ snd (buildMergedRequestInit URL_resolve method basePath unboundPath
             params requestInit h).
Proof.
  apply map_subseteq_spec. intros l v Hl.
  assert (l <> fresh (dom h)) as Hfresh.
  { intros ->. apply (is_fresh (dom h)). apply elem_of_dom. eauto. }
  unfold buildMergedRequestInit.
  unfold bind at 1, load. unfold bind at 1, alloc.
  set (copy := json_clone _). unfold bind at 1.
  pose proof (resolve_pathname_pure basePath unboundPath
                (<[fresh (dom h) := copy]> h)) as Hpure.
  destruct (resolve_pathname URL_resolve basePath unboundPath
              (<[fresh (dom h) := copy]> h)) as [[pathname|e] h1];
    simpl in Hpure; subst h1; [|simpl; by rewrite lookup_insert_ne].
  unfold bind at 1.
  pose proof (substitute_merged_frame (fresh (dom h))
                (split_on "/" pathname) (<[fresh (dom h) := copy]> h) l Hfresh)
    as Hloop.
  destruct (substitute_merged (fresh (dom h)) (split_on "/" pathname)
              (<[fresh (dom h) := copy]> h)) as [[urlSegments|e] h2];
    simpl in Hloop; rewrite lookup_insert_ne in Hloop by done.
  - destruct (is_GET method); unfold bind, load, ret; simpl; congruence.
  - simpl. congruence.
Qed.

(** The keys the path asked for are gone from what is left, and no other
    key is touched. *)
Lemma obj_find_delete {V : Type} (entries : list (string * V)) key k :
  obj_find (obj_delete entries key) k
  = if String.eqb key k then None else obj_find entries k.
Proof.
  induction entries as [|[k' v] entries IH]; simpl.
  - by destruct (String.eqb key k).
  - destruct (String.eqb_spec k' key) as [->|Hne]; simpl.
    + rewrite IH. destruct (String.eqb_spec key k) as [->|]; [done|].
      done.
    + destruct (String.eqb_spec k' k) as [->|]; [|exact IH].
      destruct (String.eqb_spec key k) as [->|]; done.
Qed.


(** C5. With the base path [/api/v1] the call does not return: the [URL]
    constructor rejects a base that is not absolute, and the assembler
    throws a [TypeError] before any segment is substituted. With no base
    path the same call returns [/users/42?active=true] and the options it
    was given (none, so no body). *)
Theorem buildMergedRequestInit_GET_relative_base (h : gmap loc value) :
  fst (buildMergedRequestInit URL_resolve GET "/api/v1" "/users/:id"
         (Val (VObj [("id", VStr "42"); ("active", VBool true)])) None h)
  = Throw TypeError
  /\ fst (buildMergedRequestInit URL_resolve GET "" "/users/:id"
            (Val (VObj [("id", VStr "42"); ("active", VBool true)])) None h)
     = Return (GET, "/users/42?active=true", None).
Proof.
  split.
  - reflexivity.
  - by rewrite (buildMergedRequestInit_GET GET "" "/users/:id" _ None h
                  "/users/:id" [("id", VStr "42"); ("active", VBool true)]).
Qed.

(** C6. With the base path [/api/v1] the [POST] call to [/login] throws
    the same [TypeError]. With no base path it returns [/login] and a
    [body] option that refers to a new object holding both parameters. *)
Theorem buildMergedRequestInit_POST_relative_base (h : gmap loc value) :
  fst (buildMergedRequestInit URL_resolve POST "/api/v1" "/login"
         (Val (VObj [("username", VStr "a"); ("password", VStr "b")])) None h)
  = Throw TypeError
  /\ buildMergedRequestInit URL_resolve POST "" "/login"
       (Val (VObj [("username", VStr "a"); ("password", VStr "b")])) None h
     = (Return (POST, "/login", Some [("body", Obj (fresh (dom h)))]),
        <[fresh (dom h) := VObj [("username", VStr "a"); ("password", VStr "b")]]> h).
Proof.
  split.
  - reflexivity.
  - by rewrite (buildMergedRequestInit_non_GET POST "" "/login" _ None h "/login"
                  [("username", VStr "a"); ("password", VStr "b")]).
Qed.
End AssemblerFacts.

Lemma buildSplitRequestInit_frame_witness :
  deref (snd (buildSplitRequestInit (fun _ _ => None) GET "/api/v1" "/users/:id"
                (Obj 0) (Val (VObj [("includeProfile", VBool true)]))
                (Val VUndefined) None
                {[ 0 := VObj [("id", VStr "7")] ]}))
        (Obj 0)
  = VObj [("id", VStr "7")].
Proof.
  exact (proj1 (proj2 (buildSplitRequestInit_frame (fun _ _ => None)
                         GET "/api/v1" "/users/:id"
                         (Obj 0) (Val (VObj [("includeProfile", VBool true)]))
                         (Val VUndefined) None
                         {[ 0 := VObj [("id", VStr "7")] ]}))).
Defined.

Lemma buildSplitRequestInit_no_path_parameters_witness :
  buildSplitRequestInit URL_resolve_plain_path GET "https://h"
    "/users/:id/posts/:post"
    (Val VUndefined) (Val (VObj [("page", VNum 2)])) (Val VUndefined) None ∅
  = (Return (GET, "https://h/users/:id/posts/:post?page=2",
             Some [("body", Val VUndefined)]), ∅).
Proof.
  exact (proj1 (buildSplitRequestInit_no_path_parameters URL_resolve_plain_path
                  GET "https://h" "/users/:id/posts/:post"
                  (Val VUndefined) (Val (VObj [("page", VNum 2)]))
                  (Val VUndefined)
                  None ∅ "/users/:id/posts/:post" eq_refl eq_refl)).
Defined.

(** C10 as stated fails with a base path: the URL is built from the
    pathname that [new URL] gives, where a [..] segment has taken the
    [:id] segment of the template away; no [:id] is left in the URL. *)
Lemma buildSplitRequestInit_no_path_parameters_counterexample :
  In ":id" (split_on "/" "/users/:id/..")
  /\ buildSplitRequestInit URL_resolve_plain_path GET "https://h"
       "/users/:id/.."
       (Val VUndefined) (Val VUndefined) (Val VUndefined) None ∅
     = (Return (GET, "https://h/users/", Some [("body", Val VUndefined)]), ∅)
  /\ existsb (String.eqb ":id") (split_on "/" "https://h/users/") = false.
Proof. split_and!; [simpl; tauto|reflexivity|reflexivity]. Qed.

(** ** The executor *)

(** C9. The reader of the body is the one the table gives for the declared
    content type, compared as a whole: [application/json] is decoded as
    JSON, [application/pdf] as a blob, the two form types as form data, and
    anything else, no header included, as text. *)
Theorem processResponse_dispatch (rawResponse : Response.t) :
  processResponse rawResponse
  = read_with (reader_for (Response.content_type rawResponse)) rawResponse.
Proof.
  unfold processResponse, reader_for.
  destruct (Response.content_type rawResponse) as [ct|]; [|done].
  unfold content_type_table, obj_find.
  rewrite !(String.eqb_sym ct).
  repeat match goal with
         | |- context [String.eqb ?k ct] => destruct (String.eqb k ct)
         end; reflexivity.
Qed.

Section ExecutorFacts.
Context (uuid : option string).
Context (fetch : string -> RequestInit -> completion Response.t).


End ExecutorFacts.



(** * Further properties of the code *)

(** ** The sanitizer: what it produces *)

Lemma forallb_Forall_true {A : Type} (p : A -> bool) (l : list A) :
  forallb p l = true <-> Forall (fun x => p x = true) l.
Proof.
  induction l as [|x l IH]; simpl.
  - split; [constructor|done].
  - rewrite andb_true_iff, IH, Forall_cons. done.
Qed.

(** The [reduce] over the entries of a mapping whose keys are distinct:
    the entries with an absent value go, the others stay where they are,
    with [f] applied to the value. *)
Lemma reduce_entries_filter (f : value -> value)
    (entries acc : list (string * value)) :
  NoDup (List.map fst acc ++ List.map fst entries) ->
  fold_left (reduce_entry f) entries acc
  = acc ++ List.map (fun kv => (fst kv, f (snd kv)))
             (List.filter (fun kv => negb (is_absent (snd kv))) entries).
Proof.
  revert acc. induction entries as [|[k v] entries IH]; intros acc Hnd; simpl.
  - by rewrite app_nil_r.
  - assert (NoDup (List.map fst acc ++ List.map fst entries)) as Hrest.
    { apply NoDup_app in Hnd as (Hacc & Hdisj & Hes).
      apply NoDup_cons in Hes as [_ Hes].
      apply NoDup_app. split_and!; [done| |done].
      intros x Hx Hin. apply (Hdisj x Hx). by right. }
    destruct (is_absent v); simpl; [by apply IH|].
    rewrite obj_set_fresh.
    + rewrite IH; [by rewrite <- app_assoc|].
      rewrite map_app. simpl. by rewrite <- app_assoc.
    + apply NoDup_app in Hnd as (_ & Hdisj & _).
      intros Hin. apply (Hdisj k Hin). by left.
Qed.

Lemma reduce_entries_NoDup (f : value -> value)
    (entries acc : list (string * value)) :
  NoDup (List.map fst acc) ->
  NoDup (List.map fst (fold_left (reduce_entry f) entries acc)).
Proof.
  revert acc. induction entries as [|[k v] entries IH]; intros acc Hnd; simpl.
  - done.
  - destruct (is_absent v); apply IH; [done|by apply obj_set_NoDup].
Qed.

Lemma reduce_entries_Forall (f : value -> value) (Q : string * value -> Prop)
    (entries acc : list (string * value)) :
  Forall (fun kv => is_absent (snd kv) = false -> Q (fst kv, f (snd kv)))
         entries ->
  Forall Q acc ->
  Forall Q (fold_left (reduce_entry f) entries acc).
Proof.
  intros Hall. revert acc.
  induction Hall as [|[k v] entries Hv Hall IH]; intros acc Hacc; simpl.
  - done.
  - destruct (is_absent v) eqn:Habs; apply IH; [done|].
    apply obj_set_Forall; [done|]. by apply Hv.
Qed.

Lemma prepared_clean (v : value) : clean (prepareParameters v) = true.
Proof.
  induction v as [| | | |s| |elems IH|entries IH] using value_nested_ind;
    try reflexivity.
  - by destruct s.
  - rewrite prepareParameters_VArr. cbn [clean].
    induction IH as [|e elems He Hall IHl]; simpl; [done|].
    destruct (truthy (prepareParameters e)) eqn:Ht; simpl; [|done].
    by rewrite Ht, He.
  - rewrite prepareParameters_VObj. cbn [clean].
    apply andb_true_iff. split.
    + apply bool_decide_eq_true_2. apply reduce_entries_NoDup. apply NoDup_nil_2.
    + apply forallb_Forall_true.
      apply reduce_entries_Forall; [|constructor].
      eapply Forall_impl; [exact IH|].
      intros [k v] Hv Habs. simpl in *.
      by rewrite (prepared_not_absent v Habs), Hv.
Qed.

Lemma clean_settled (v : value) : clean v = true -> prepareParameters v = v.
Proof.
  induction v as [| | | |s| |elems IH|entries IH] using value_nested_ind;
    try done.
  - by destruct s.
  - rewrite prepareParameters_VArr. cbn [clean]. intros Hclean. f_equal.
    induction IH as [|e elems He Hall IHl]; simpl in *; [done|].
    apply andb_true_iff in Hclean as [[Ht Hc]%andb_true_iff Hrest].
    rewrite (He Hc), Ht. f_equal. by apply IHl.
  - rewrite prepareParameters_VObj. cbn [clean].
    intros [Hnd%bool_decide_eq_true Hall%forallb_Forall_true]%andb_true_iff.
    rewrite reduce_entries_filter; [|done]. simpl. f_equal.
    clear Hnd.
    induction IH as [|[k v] entries Hv IHall IHl]; simpl in *; [done|].
    apply Forall_cons in Hall as [[Habs Hc]%andb_true_iff Hall].
    simpl in *. rewrite Habs. simpl. rewrite (Hv Hc). f_equal. by apply IHl.
Qed.

(** X1. The sanitized structure is clean: no [undefined] and no empty string
    anywhere, no falsy element in a sequence, no absent value and no
    repeated key in a mapping. *)
Theorem prepareParameters_clean (params : value) :
  clean (prepareParameters params) = true.
Proof. apply prepared_clean. Qed.

(** X2. The structures the sanitizer leaves as they are are exactly the clean
    ones. *)
Theorem prepareParameters_fixed_points (params : value) :
  prepareParameters params = params <-> clean params = true.
Proof.
  split.
  - intros <-. apply prepared_clean.
  - apply clean_settled.
Qed.

(** X3. On a mapping (its keys are distinct) the sanitizer drops exactly the
    entries whose value is absent and sanitizes the values of the others,
    which keep their keys and their order. *)
Theorem prepareParameters_mapping (entries : list (string * value)) :
  NoDup (List.map fst entries) ->
  prepareParameters (VObj entries)
  = VObj (List.map (fun kv => (fst kv, prepareParameters (snd kv)))
            (List.filter (fun kv => negb (is_absent (snd kv))) entries)).
Proof.
  intros Hnd. rewrite prepareParameters_VObj.
  by rewrite reduce_entries_filter.
Qed.

Lemma prepareParameters_mapping_witness :
  prepareParameters
    (VObj [("q", VStr ""); ("page", VNum 0); ("tag", VNull);
           ("range", VObj [("from", VStr "a"); ("to", VUndefined)])])
  = VObj [("page", VNum 0); ("range", VObj [("from", VStr "a")])].
Proof.
  refine (eq_trans
            (prepareParameters_mapping
               [("q", VStr ""); ("page", VNum 0); ("tag", VNull);
                ("range", VObj [("from", VStr "a"); ("to", VUndefined)])] _)
            eq_refl).
  apply (bool_decide_unpack _). vm_compute. exact I.
Defined.

(** X4. It makes no difference to the query string whether the parameters were
    sanitized beforehand. *)
Theorem buildSearchString_presanitized (params : value) :
  buildSearchString (prepareParameters params) = buildSearchString params.
Proof.
  unfold buildSearchString.
  by rewrite (clean_settled _ (prepared_clean params)).
Qed.

(** ** Query strings: pairs and characters *)

Lemma join_strings_cons_nonempty (sep p : string) (ps : list string) :
  p <> "" -> join_strings sep (p :: ps) <> "".
Proof.
  intros Hp. destruct ps as [|p' ps]; simpl; [done|].
  by destruct p.
Qed.

Lemma pair_nonempty (k v : string) : k +:+ "=" +:+ v <> "".
Proof. by destruct k. Qed.

(** A value of a record that is neither absent nor a sequence is, after
    sanitizing and the conversion of objects, something [qs] writes one
    pair for. *)
Lemma entry_pair (k : string) (v : value) :
  is_sequence v = false -> is_absent v = false ->
  is_null (stringify_structured (prepareParameters v)) = false
  /\ qs_pairs (stringify_structured (prepareParameters v)) k
     = [qs_encode k +:+ "=" +:+ qs_encode (entry_text v)].
Proof.
  destruct v as [| | | |[|]| | |entries]; done.
Qed.

Lemma record_pairs (entries : list (string * value)) :
  Forall (fun kv => is_sequence (snd kv) = false) entries ->
  flat_map (fun '(k, e) => if is_null e then [] else qs_pairs e k)
    (List.map (fun '(k, v) => (k, stringify_structured v))
       (List.map (fun kv => (fst kv, prepareParameters (snd kv)))
          (List.filter (fun kv => negb (is_absent (snd kv))) entries)))
  = List.map (fun kv => qs_encode (fst kv) +:+ "=" +:+ qs_encode (entry_text (snd kv)))
      (List.filter (fun kv => negb (is_absent (snd kv))) entries).
Proof.
  induction 1 as [|[k v] entries Hseq Hall IH]; simpl; [done|].
  destruct (is_absent v) eqn:Habs; simpl; [done|].
  destruct (entry_pair k v Hseq Habs) as (-> & ->).
  simpl. by rewrite IH.
Qed.

(** X5. A record with distinct keys, no value a sequence, and in its values
    no date and no number other than a safe integer, gives one [key=value]
    pair for each value that is not absent, in the order of the record and
    joined with [&] after the [?], and the empty string when no value is
    left. The value of a pair is the encoded text of a scalar, and for a
    nested mapping the encoded JSON text of its sanitized form. *)
Theorem buildSearchString_record (entries : list (string * value)) :
  NoDup (List.map fst entries) ->
  Forall (fun kv => is_sequence (snd kv) = false) entries ->
  Forall (fun kv => safe_numbers (snd kv) = true /\ no_date (snd kv) = true)
         entries ->
  buildSearchString (VObj entries)
  = match List.map (fun kv => qs_encode (fst kv) +:+ "="
                              +:+ qs_encode (entry_text (snd kv)))
            (List.filter (fun kv => negb (is_absent (snd kv))) entries) with
    | [] => ""
    | pairs => "?" +:+ join_strings "&" pairs
    end.
Proof.
  intros Hnd Hvalues _. unfold buildSearchString.
  rewrite prepareParameters_VObj, reduce_entries_filter by done.
  cbn [app truthy negb convert_objects qs_stringify own_entries].
  rewrite (record_pairs entries Hvalues).
  destruct (List.map _ (List.filter _ entries)) as [|p ps] eqn:Hpairs; [done|].
  destruct (String.eqb_spec (join_strings "&" (p :: ps)) "") as [Hempty|_];
    [|done].
  exfalso. revert Hempty. apply join_strings_cons_nonempty.
  destruct (List.filter _ entries) as [|[k v] rest]; [done|].
  simpl in Hpairs. injection Hpairs as <- _. apply pair_nonempty.
Qed.

Lemma buildSearchString_record_witness :
  buildSearchString
    (VObj [("q", VStr "tea & cake"); ("page", VNum 3); ("debug", VNull);
           ("exact", VBool false);
           ("range", VObj [("from", VNum 1); ("to", VStr "")])])
  = "?q=tea%20%26%20cake&page=3&exact=false&range=%7B%22from%22%3A1%7D".
Proof.
  refine (eq_trans
            (buildSearchString_record
               [("q", VStr "tea & cake"); ("page", VNum 3); ("debug", VNull);
                ("exact", VBool false);
                ("range", VObj [("from", VNum 1); ("to", VStr "")])]
               _ _ _)
            eq_refl).
  - apply (bool_decide_unpack _). vm_compute. exact I.
  - repeat constructor.
  - repeat constructor.
Defined.

Lemma string_forall_app (p : ascii -> bool) (s t : string) :
  string_forall p (s +:+ t) = string_forall p s && string_forall p t.
Proof.
  induction s as [|c s IH]; simpl; [done|].
  by rewrite IH, andb_assoc.
Qed.

Lemma string_forall_impl (p q : ascii -> bool) (s : string) :
  (forall c, p c = true -> q c = true) ->
  string_forall p s = true -> string_forall q s = true.
Proof.
  intros Hpq. induction s as [|c s IH]; simpl; [done|].
  intros [Hc Hs]%andb_true_iff. by rewrite (Hpq c Hc), IH.
Qed.

Lemma qs_encode_unit_safe (c : ascii) :
  string_forall qs_safe (qs_encode_unit c) = true.
Proof. destruct c as [[] [] [] [] [] [] [] []]; vm_compute; reflexivity. Qed.

Lemma qs_encode_safe (s : string) : string_forall qs_safe (qs_encode s) = true.
Proof.
  induction s as [|c s IH]; simpl; [done|].
  by rewrite string_forall_app, qs_encode_unit_safe, IH.
Qed.

Lemma qs_pair_chars (k v : string) :
  string_forall pair_char (qs_encode k +:+ "=" +:+ qs_encode v) = true.
Proof.
  assert (forall c, qs_safe c = true -> pair_char c = true) as Himpl.
  { intros c Hc. unfold pair_char. by rewrite Hc. }
  rewrite !string_forall_app.
  rewrite (string_forall_impl _ _ _ Himpl (qs_encode_safe k)).
  by rewrite (string_forall_impl _ _ _ Himpl (qs_encode_safe v)).
Qed.

Lemma qs_pairs_chars (obj : value) :
  forall prefix,
    Forall (fun pair => string_forall pair_char pair = true)
           (qs_pairs obj prefix).
Proof.
  induction obj as [| | | | | |elems IH|entries IH] using value_nested_ind;
    intros prefix; cbn [qs_pairs];
    try (constructor; [|constructor]; apply qs_pair_chars).
  - constructor.
  - constructor; [|constructor].
    change (qs_encode prefix +:+ "=")
      with (qs_encode prefix +:+ "=" +:+ qs_encode "").
    apply qs_pair_chars.
  - induction IH as [|e elems He Hall IHl]; simpl; [constructor|].
    apply Forall_app. split; [|exact IHl].
    destruct (is_null e); [constructor|apply He].
  - induction IH as [|[k e] entries He Hall IHl]; simpl; [constructor|].
    apply Forall_app. split; [|exact IHl].
    destruct (is_null e); [constructor|apply He].
Qed.

Lemma join_strings_forall (p : ascii -> bool) (sep : string)
    (parts : list string) :
  string_forall p sep = true ->
  Forall (fun part => string_forall p part = true) parts ->
  string_forall p (join_strings sep parts) = true.
Proof.
  intros Hsep. induction 1 as [|part parts Hpart Hall IH]; [done|].
  destruct parts as [|part' parts]; [done|].
  change (join_strings sep (part :: part' :: parts))
    with (part +:+ sep +:+ join_strings sep (part' :: parts)).
  by rewrite !string_forall_app, Hpart, Hsep, IH.
Qed.

Lemma qs_stringify_chars (obj : value) :
  qs_stringify obj = ""
  \/ exists rest, qs_stringify obj = String "?" rest
                  /\ string_forall query_char rest = true.
Proof.
  assert (forall entries : list (string * value),
            string_forall query_char
              (join_strings "&"
                 (flat_map (fun '(k, e) => if is_null e then [] else qs_pairs e k)
                           entries)) = true) as Hjoined.
  { intros entries. apply join_strings_forall; [done|].
    induction entries as [|[k e] entries IH]; simpl; [constructor|].
    apply Forall_app. split; [|exact IH].
    destruct (is_null e); [constructor|].
    eapply Forall_impl; [apply qs_pairs_chars|].
    intros pair. apply string_forall_impl.
    intros c Hc. unfold query_char. fold (pair_char c). by rewrite Hc. }
  unfold qs_stringify.
  destruct obj; try (by left);
    match goal with
    | |- context [String.eqb ?j ""] => destruct (String.eqb j "")
    end; eauto.
Qed.

(** X6. Whatever the parameters, the query string is empty or a [?] followed
    only by unreserved characters, percent escapes, [=] and [&]: no key or
    value can put a space, a quote, a [#], a [/] or a second [?] into the
    URL. *)
Theorem buildSearchString_characters (params : value) :
  buildSearchString params = ""
  \/ exists rest, buildSearchString params = String "?" rest
                  /\ string_forall query_char rest = true.
Proof.
  unfold buildSearchString.
  destruct (negb (truthy (prepareParameters params))); [by left|].
  apply qs_stringify_chars.
Qed.

(** X7. Parameters that are not a mapping or a sequence (a string, a number, a
    boolean, a date, [null], [undefined]) give no query string at all. *)
Theorem buildSearchString_not_an_object (params : value) :
  is_leaf params = true -> buildSearchString params = "".
Proof.
  destruct params as [| |[]|n|[|]| | |]; try done.
  intros _. unfold buildSearchString. simpl. by destruct (n =? 0)%Z.
Qed.

Lemma buildSearchString_not_an_object_witness :
  buildSearchString (VStr "page=2&sort=asc") = "".
Proof.
  exact (buildSearchString_not_an_object (VStr "page=2&sort=asc") eq_refl).
Defined.

(** ** Request assembly: what is left of the parameters *)








Section AssemblerMore.
Context (URL_resolve : string -> string -> option string).



(** X12. A relative base path (not empty, no scheme) makes both assemblers
    throw the [TypeError] of the [URL] constructor, whatever the rest of the
    call. *)
Theorem assemblers_reject_relative_base method basePath unboundPath
    params pathParameters queryParameters body requestInit
    (h : gmap loc value) :
  basePath <> "" -> URL_has_scheme basePath = false ->
  fst (buildMergedRequestInit URL_resolve method basePath unboundPath
         params requestInit h) = Throw TypeError
  /\ buildSplitRequestInit URL_resolve method basePath unboundPath
       pathParameters queryParameters body requestInit h
     = (Throw TypeError, h).
Proof.
  intros Hne Hscheme. split.
  - unfold buildMergedRequestInit.
    unfold bind at 1, load. unfold bind at 1, alloc. unfold bind at 1.
    by rewrite resolve_pathname_relative_base.
  - rewrite buildSplitRequestInit_spec.
    by rewrite resolve_pathname_relative_base.
Qed.

(** X13. The split assembler does not look at the method: the URL (query string
    included) and the options (body included) are the same for every
    method. *)
Theorem buildSplitRequestInit_any_method method method' basePath unboundPath
    pathParameters queryParameters body requestInit (h : gmap loc value) :
  completion_map (fun out => (snd (fst out), snd out))
    (fst (buildSplitRequestInit URL_resolve method basePath unboundPath
            pathParameters queryParameters body requestInit h))
  = completion_map (fun out => (snd (fst out), snd out))
      (fst (buildSplitRequestInit URL_resolve method' basePath unboundPath
              pathParameters queryParameters body requestInit h)).
Proof.
  rewrite !buildSplitRequestInit_spec.
  by destruct (fst (resolve_pathname URL_resolve basePath unboundPath h)).
Qed.


End AssemblerMore.


(** ** Merged and split mode side by side *)


Lemma obj_find_None {V : Type} (entries : list (string * V)) k :
  k ∉ List.map fst entries -> obj_find entries k = None.
Proof.
  induction entries as [|[k' v] entries IH]; simpl; [done|].
  intros [Hne Hk]%not_elem_of_cons.
  destruct (String.eqb_spec k' k) as [->|_]; [done|]. by apply IH.
Qed.

Lemma obj_delete_keys {V : Type} (entries : list (string * V)) k k' :
  k' ∈ List.map fst (obj_delete entries k) ->
  k' ∈ List.map fst entries /\ k' <> k.
Proof.
  induction entries as [|[k0 v] entries IH]; simpl.
  - by intros ?%elem_of_nil.
  - destruct (String.eqb_spec k0 k) as [->|Hne]; simpl.
    + intros [Hin Hk]%IH. split; [by right|done].
    + intros [->|Hin]%elem_of_cons.
      * split; [by left|done].
      * destruct (IH Hin). split; [by right|done].
Qed.





Section MergedAndSplit.
Context (URL_resolve : string -> string -> option string).

End MergedAndSplit.

(** ** The executor: the options handed to the transport *)

Lemma obj_find_set {V : Type} (entries : list (string * V)) key v k :
  obj_find (obj_set entries key v) k
  = if String.eqb key k then Some v else obj_find entries k.
Proof.
  induction entries as [|[k' w] entries IH]; simpl.
  - done.
  - destruct (String.eqb_spec k' key) as [->|Hne]; simpl.
    + by destruct (String.eqb key k).
    + rewrite IH. destruct (String.eqb_spec k' k) as [->|]; [|done].
      by destruct (String.eqb_spec key k).
Qed.

Lemma obj_find_assign_None {V : Type} (target source : list (string * V)) k :
  obj_find source k = None ->
  obj_find (obj_assign target source) k = obj_find target k.
Proof.
  unfold obj_assign. revert target.
  induction source as [|[k' v] source IH]; intros target; simpl; [done|].
  destruct (String.eqb_spec k' k) as [->|Hne]; [done|].
  intros Hnone. rewrite IH, obj_find_set by done.
  by destruct (String.eqb_spec k' k).
Qed.

Lemma obj_find_assign_Some {V : Type} (target source : list (string * V)) k v :
  NoDup (List.map fst source) ->
  obj_find source k = Some v ->
  obj_find (obj_assign target source) k = Some v.
Proof.
  unfold obj_assign. revert target.
  induction source as [|[k' w] source IH]; intros target; simpl; [done|].
  intros [Hfresh Hnd]%NoDup_cons.
  destruct (String.eqb_spec k' k) as [->|Hne].
  - intros [= ->].
    change (obj_find (obj_assign (obj_set target k v) source) k = Some v).
    rewrite obj_find_assign_None by by apply obj_find_None.
    by rewrite obj_find_set, String.eqb_refl.
  - by apply IH.
Qed.

Lemma obj_delete_NoDup {V : Type} (entries : list (string * V)) key :
  NoDup (List.map fst entries) -> NoDup (List.map fst (obj_delete entries key)).
Proof.
  induction entries as [|[k v] entries IH]; simpl; [done|].
  intros [Hfresh Hnd]%NoDup_cons.
  destruct (String.eqb k key); simpl; [by apply IH|].
  apply NoDup_cons. split; [|by apply IH].
  by intros [? _]%obj_delete_keys.
Qed.

Lemma truthy_JSON_stringify (v : value) :
  truthy v = true -> is_Some (JSON_stringify v).
Proof. destruct v; simpl; eauto; done. Qed.

Lemma requestOptions_find (h : gmap loc value) method trace request key :
  NoDup (List.map fst (default [] request)) ->
  key <> "body" -> key <> "headers" ->
  obj_find (requestOptions h method trace request) key
  = match obj_find (default [] request) key with
    | Some given => Some given
    | None =>
        obj_find [("method", Val (VStr (method_name method)));
                  ("credentials", Val (VStr "include"));
                  ("mode", Val (VStr "cors"))] key
    end.
Proof.
  intros Hnd Hbody Hheaders. unfold requestOptions.
  set (given := default [] request) in *.
  assert (forall o : RequestInit,
            obj_find (obj_set o "body" (Val (match JSON_stringify
                        (deref h (default (Val VUndefined) (obj_find given "body")))
                      with Some text => VStr text | None => VUndefined end))) key
            = obj_find o key) as Hskip.
  { intros o. rewrite obj_find_set.
    by destruct (String.eqb_spec "body" key). }
  assert (obj_find (obj_delete (obj_delete given "body") "headers") key
          = obj_find given key) as Hrest.
  { rewrite !obj_find_delete.
    destruct (String.eqb_spec "headers" key); [done|].
    by destruct (String.eqb_spec "body" key). }
  destruct (truthy _); rewrite ?Hskip, obj_find_set;
    (destruct (String.eqb_spec "headers" key); [done|]);
    (destruct (obj_find given key) as [v|] eqn:Hgiven;
     [ apply obj_find_assign_Some;
       [by do 2 apply obj_delete_NoDup|by rewrite Hrest]
     | rewrite obj_find_assign_None; [done|by rewrite Hrest] ]).
Qed.

(** X16. Every option of the caller other than [body] and [headers] reaches
    the transport as given, [method], [credentials] and [mode] included;
    where the caller gives none, [method] is the method argument,
    [credentials] is [include] and [mode] is [cors]. *)
Theorem requestOptions_option (h : gmap loc value) method trace request key :
  NoDup (List.map fst (default [] request)) ->
  key <> "body" -> key <> "headers" ->
  obj_find (requestOptions h method trace request) key
  = match obj_find (default [] request) key with
    | Some given => Some given
    | None =>
        obj_find [("method", Val (VStr (method_name method)));
                  ("credentials", Val (VStr "include"));
                  ("mode", Val (VStr "cors"))] key
    end.
Proof. apply requestOptions_find. Qed.

(** The [headers] option is the record of the three defaults under the
    caller's headers. *)
Lemma requestOptions_headers_record (h : gmap loc value) method trace request
    headers :
  deref h (default (Val VUndefined) (obj_find (default [] request) "headers"))
  = VObj headers ->
  obj_find (requestOptions h method trace request) "headers"
  = Some (Val (VObj (obj_assign [("Accept", VStr "application/json");
                                 ("Content-Type", VStr "application/json");
                                 ("X-Trace", VStr trace)]
                                headers))).
Proof.
  intros Hheaders. unfold requestOptions. rewrite Hheaders.
  cbn [own_entries].
  destruct (truthy _); rewrite ?obj_find_set; cbn [String.eqb Ascii.eqb Bool.eqb];
    rewrite ?obj_find_set; reflexivity.
Qed.

Lemma obj_set_keys_cases {V : Type} (entries : list (string * V)) key v :
  List.map fst (obj_set entries key v)
  = if decide (key ∈ List.map fst entries) then List.map fst entries
    else List.map fst entries ++ [key].
Proof.
  case_decide as Hin.
  - induction entries as [|[k w] entries IH]; simpl in *.
    + by apply elem_of_nil in Hin.
    + destruct (String.eqb_spec k key) as [->|Hne]; simpl; [done|].
      f_equal. apply IH.
      by apply elem_of_cons in Hin as [?|?].
  - by rewrite obj_set_fresh, map_app.
Qed.

(** Names that are distinct under a renaming stay so in a spread, when no
    name of the source clashes under the renaming with another name of the
    target. *)
Lemma obj_assign_names_NoDup {V : Type} (f : string -> string)
    (source target : list (string * V)) :
  NoDup (List.map f (List.map fst target)) ->
  NoDup (List.map f (List.map fst source)) ->
  (forall k d, k ∈ List.map fst source -> d ∈ List.map fst target ->
               f k = f d -> k = d) ->
  NoDup (List.map f (List.map fst (obj_assign target source))).
Proof.
  unfold obj_assign. revert target.
  induction source as [|[k v] source IH]; intros target Ht Hs Hclash;
    simpl in *; [done|].
  apply NoDup_cons in Hs as [Hk Hs].
  apply IH; [|done|].
  - rewrite obj_set_keys_cases. case_decide as Hin; [done|].
    rewrite map_app. apply NoDup_app. split_and!; [done| |apply NoDup_singleton].
    intros x Hx ->%list_elem_of_singleton.
    apply list_elem_of_In, in_map_iff in Hx as (d & Heq & Hd%list_elem_of_In).
    apply Hin. rewrite (Hclash k d); [done|by left|done|done].
  - intros k' d Hk' Hd Heq. rewrite obj_set_keys_cases in Hd.
    assert (d ∈ List.map fst target \/ d = k) as [Hd'| ->].
    { case_decide; [by left|].
      apply elem_of_app in Hd as [?|?%list_elem_of_singleton]; auto. }
    + apply Hclash; [by right|done|done].
    + exfalso. apply Hk. rewrite <- Heq.
      by apply list_elem_of_In, in_map, list_elem_of_In.
Qed.



(** X17. The headers as [makeRequest] gives them to [new Headers]: when the
    caller's headers are a mapping whose names are distinct also with
    letter case ignored, and none of them differs from the name of a
    default header in letter case only, the names of the record given to
    [new Headers] are distinct with letter case ignored as well; a header
    of the caller is in it as given; and of the three defaults, [Accept]
    and [Content-Type] as [application/json] and [X-Trace] as the trace
    id, each is in it unless the caller gives a header of that name. *)
Theorem requestOptions_headers (h : gmap loc value) method trace request
    headers :
  deref h (default (Val VUndefined) (obj_find (default [] request) "headers"))
  = VObj headers ->
  NoDup (List.map byte_lowercase (List.map fst headers)) ->
  Forall (fun kv => existsb (case_variant (fst kv)) default_header_names = false)
         headers ->
  exists sent,
    obj_find (requestOptions h method trace request) "headers"
    = Some (Val (VObj sent))
    /\ NoDup (List.map byte_lowercase (List.map fst sent))
    /\ forall header,
         obj_find sent header
         = match obj_find headers header with
           | Some given => Some given
           | None =>
               obj_find [("Accept", VStr "application/json");
                         ("Content-Type", VStr "application/json");
                         ("X-Trace", VStr trace)] header
           end.
Proof.
  intros Hheaders Hnd Hvariant. eexists. split_and!.
  - by apply requestOptions_headers_record.
  - apply obj_assign_names_NoDup; [|done|].
    + apply (bool_decide_unpack _). vm_compute. exact I.
    + intros k d Hk Hd Heq.
      apply list_elem_of_In, in_map_iff in Hk as ([k' v] & <- & Hkv).
      rewrite Forall_forall in Hvariant.
      pose proof (Hvariant (k', v) (proj2 (list_elem_of_In _ _) Hkv)) as Hnone.
      cbn [fst] in *.
      destruct (String.eqb_spec k' d) as [|Hne]; [done|]. exfalso.
      assert (existsb (case_variant k') default_header_names = true) as Hsome;
        [|congruence].
      apply existsb_exists. exists d. split; [by apply list_elem_of_In|].
      unfold case_variant. rewrite Heq, String.eqb_refl.
      by destruct (String.eqb_spec k' d).
  - intros header. destruct (obj_find headers header) as [v|] eqn:Hgiven.
    + apply obj_find_assign_Some; [|done].
      exact (NoDup_fmap_1 byte_lowercase _ Hnd).
    + by rewrite obj_find_assign_None.
Qed.

(** X18. The body handed to the transport: the JSON text of the caller's body
    when that is truthy; no body at all when it is falsy, so a body that is
    [0], [false], the empty string or [null] is never sent. *)
Theorem requestOptions_body (h : gmap loc value) method trace request :
  let body :=
    deref h (default (Val VUndefined) (obj_find (default [] request) "body")) in
  obj_find (requestOptions h method trace request) "body"
  = (if truthy body
     then option_map (fun text => Val (VStr text)) (JSON_stringify body)
     else None)
  /\ (truthy body = true -> is_Some (JSON_stringify body)).
Proof.
  cbv zeta. split; [|apply truthy_JSON_stringify].
  unfold requestOptions.
  destruct (truthy _) eqn:Htruthy.
  - rewrite obj_find_set. cbn [String.eqb Ascii.eqb Bool.eqb].
    by destruct (truthy_JSON_stringify _ Htruthy) as [text ->].
  - rewrite obj_find_set. cbn [String.eqb Ascii.eqb Bool.eqb].
    rewrite obj_find_assign_None; [done|].
    rewrite !obj_find_delete.
    cbn [String.eqb Ascii.eqb Bool.eqb]. done.
Qed.

Section ExecutorMore.
Context (uuid : option string).
Context (fetch : string -> RequestInit -> completion Response.t).

(** X19. [makeRequest] returns a body only for a response that arrived with a
    status from 200 to 299 and whose reader produced that body. *)
Theorem makeRequest_returns_only_ok (h : gmap loc value) method path request
    responseBody :
  makeRequest uuid fetch h method path request = Return responseBody ->
  exists response,
    fetch path (requestOptions h method (default "" uuid) request)
    = Return response
    /\ (200 <= Response.status response <= 299)%Z
    /\ processResponse response = Return responseBody.
Proof.
  unfold makeRequest.
  destruct (fetch path _) as [response|e] eqn:Hfetch; [|done].
  destruct (processResponse response) as [body|e] eqn:Hbody; [|done].
  unfold Response.ok.
  destruct (andb _ _) eqn:Hok; simpl; [|done].
  intros [= ->]. exists response.
  apply andb_true_iff in Hok as [Hlo%Z.leb_le Hhi%Z.leb_le].
  split_and!; [done|lia|lia|done].
Qed.

(** X20. A rejection of the transport, and a failure of the body reader for a
    response of any status, reach the caller as they are: neither is
    wrapped in an [APIError], and no response body is returned. *)
Theorem makeRequest_failures_propagate (h : gmap loc value) method path
    request :
  (forall e,
     fetch path (requestOptions h method (default "" uuid) request) = Throw e ->
     makeRequest uuid fetch h method path request = Throw e)
  /\ (forall response e,
        fetch path (requestOptions h method (default "" uuid) request)
        = Return response ->
        processResponse response = Throw e ->
        makeRequest uuid fetch h method path request = Throw e).
Proof.
  unfold makeRequest. split.
  - by intros e ->.
  - by intros response e -> ->.
Qed.


(** The options depend on the store through the caller's [body] and
    [headers] only. *)
Lemma requestOptions_deref (h h' : gmap loc value) method trace request :
  (forall key,
     key = "body" \/ key = "headers" ->
     deref h' (default (Val VUndefined) (obj_find (default [] request) key))
     = deref h (default (Val VUndefined) (obj_find (default [] request) key))) ->
  requestOptions h' method trace request = requestOptions h method trace request.
Proof.
  intros Hsame. unfold requestOptions.
  by rewrite (Hsame "body"), (Hsame "headers") by auto.
Qed.

(** The store after two allocations holds what it held. *)
Lemma alloc_twice_frame (h : gmap loc value) (v w : value) :
  let controller := fresh (dom h) in
  let signal := fresh (dom (<[controller := v]> h)) in
  controller <> signal
  /\ h !! controller = None /\ h !! signal = None
  /\ forall a : jsarg,
       (forall l, a = Obj l -> is_Some (h !! l)) ->
       deref (<[signal := w]> (<[controller := v]> h)) a = deref h a.
Proof.
  intros controller signal.
  assert (h !! controller = None) as Hc.
  { apply not_elem_of_dom, is_fresh. }
  assert (<[controller := v]> h !! signal = None) as Hs.
  { apply not_elem_of_dom, is_fresh. }
  assert (controller <> signal) as Hne.
  { intros Heq. rewrite <- Heq, lookup_insert_eq in Hs. done. }
  rewrite lookup_insert_ne in Hs by done.
  split_and!; [done..|].
  intros [x|l] Hin; [done|]. simpl.
  destruct (Hin l eq_refl) as [x Hx].
  rewrite !lookup_insert_ne; [done| |]; intros ->; congruence.
Qed.

(** X22. [makeCancellableRequest] allocates a controller and its signal and
    touches nothing else; the transport is handed the new signal whatever
    [signal] the caller's options held; and with the caller's [body] and
    [headers] among the objects of the store, the promise settles as
    [makeRequest] does on the caller's store and options with [signal]
    set. *)
Theorem makeCancellableRequest_signal (h : gmap loc value) method path
    request :
  NoDup (List.map fst (default [] request)) ->
  (forall key l, obj_find (default [] request) key = Some (Obj l) ->
                 is_Some (h !! l)) ->
  exists controller signal h',
    makeCancellableRequest uuid fetch method path request h
    = (Return (makeRequest uuid fetch h method path
                 (Some (obj_set (default [] request) "signal" (Obj signal))),
               controller), h')
    /\ h !! controller = None /\ h !! signal = None /\ controller <> signal
    /\ h ⊆ h'
    /\ obj_find (requestOptions h method (default "" uuid)
                   (Some (obj_set (default [] request) "signal" (Obj signal))))
                "signal"
       = Some (Obj signal).
Proof.
  intros Hnd Hrefs.
  destruct (alloc_twice_frame h (VObj []) (VObj []))
    as (Hne & Hc & Hs & Hderef).
  set (controller := fresh (dom h)) in *.
  set (signal := fresh (dom (<[controller := VObj []]> h))) in *.
  exists controller, signal, (<[signal := VObj []]> (<[controller := VObj []]> h)).
  split_and!; [|done..| |].
  - unfold makeCancellableRequest, bind, alloc, get_store, ret.
    fold controller. fold signal. do 2 f_equal.
    unfold makeRequest.
    rewrite (requestOptions_deref h
               (<[signal := VObj []]> (<[controller := VObj []]> h))); [done|].
    intros key Hkey. cbn [default from_option id]. rewrite obj_find_set.
    assert (String.eqb "signal" key = false) as ->.
    { by destruct Hkey as [-> | ->]. }
    apply Hderef. intros l Hl.
    destruct (obj_find (default [] request) key) as [a|] eqn:Hfind;
      simpl in Hl; [|done].
    subst a. by apply (Hrefs key).
  - apply map_subseteq_spec. intros l v Hl.
    rewrite !lookup_insert_ne; [done| |]; intros ->; congruence.
  - rewrite requestOptions_find; [|by apply obj_set_NoDup|done|done].
    cbn [default from_option id]. by rewrite obj_find_set, String.eqb_refl.
Qed.
End ExecutorMore.

(** ** The further properties at sample calls *)



Lemma assemblers_reject_relative_base_witness :
  buildSplitRequestInit (fun _ _ => None) GET "/api/v1" "/users/:id"
    (Val (VObj [("id", VStr "7")])) (Val VUndefined) (Val VUndefined) None ∅
  = (Throw TypeError, ∅).
Proof.
  apply (assemblers_reject_relative_base (fun _ _ => None) GET "/api/v1"
           "/users/:id" (Val VUndefined)); [discriminate|reflexivity].
Defined.




Lemma requestOptions_option_witness :
  obj_find (requestOptions ∅ GET "t-1"
              (Some [("method", Val (VStr "HEAD")); ("cache", Val (VStr "no-store"))]))
           "method"
  = Some (Val (VStr "HEAD")).
Proof.
  apply (requestOptions_option ∅ GET "t-1"
           (Some [("method", Val (VStr "HEAD")); ("cache", Val (VStr "no-store"))])
           "method"); [|discriminate|discriminate].
  apply (bool_decide_unpack _). vm_compute. exact I.
Defined.

Lemma requestOptions_headers_witness :
  exists sent,
    obj_find (requestOptions ∅ GET "t-1"
                (Some [("headers", Val (VObj [("Accept", VStr "text/csv");
                                              ("x-request-id", VStr "r-1")]))]))
             "headers"
    = Some (Val (VObj sent))
    /\ NoDup (List.map byte_lowercase (List.map fst sent))
    /\ forall header,
         obj_find sent header
         = match obj_find [("Accept", VStr "text/csv");
                           ("x-request-id", VStr "r-1")] header with
           | Some given => Some given
           | None =>
               obj_find [("Accept", VStr "application/json");
                         ("Content-Type", VStr "application/json");
                         ("X-Trace", VStr "t-1")] header
           end.
Proof.
  apply (requestOptions_headers ∅ GET "t-1"
           (Some [("headers", Val (VObj [("Accept", VStr "text/csv");
                                         ("x-request-id", VStr "r-1")]))])
           [("Accept", VStr "text/csv"); ("x-request-id", VStr "r-1")]);
    [reflexivity| |repeat constructor].
  apply (bool_decide_unpack _). vm_compute. exact I.
Defined.

Lemma requestOptions_body_witness :
  obj_find (requestOptions ∅ POST "t-1" (Some [("body", Val (VNum 0))])) "body"
  = None
  /\ obj_find (requestOptions ∅ POST "t-1"
                 (Some [("body", Val (VObj [("n", VNum 0)]))])) "body"
     = Some (Val (VStr ("{" +:+ json_quote "n" +:+ ":0}"))).
Proof.
  split.
  - exact (proj1 (requestOptions_body ∅ POST "t-1"
                    (Some [("body", Val (VNum 0))]))).
  - exact (proj1 (requestOptions_body ∅ POST "t-1"
                    (Some [("body", Val (VObj [("n", VNum 0)]))]))).
Defined.

Lemma makeRequest_returns_only_ok_witness :
  exists response,
    Return (Response.make 200 (Some "application/json")
              (Return (VObj [("token", VStr "abc")]))
              (Return "") (Return []) (Return ""))
    = Return response
    /\ (200 <= Response.status response <= 299)%Z
    /\ processResponse response = Return (Json (VObj [("token", VStr "abc")])).
Proof.
  exact (makeRequest_returns_only_ok None
           (fun _ _ => Return (Response.make 200 (Some "application/json")
                                 (Return (VObj [("token", VStr "abc")]))
                                 (Return "") (Return []) (Return "")))
           ∅ POST "/login" None (Json (VObj [("token", VStr "abc")])) eq_refl).
Defined.

Lemma makeRequest_failures_propagate_witness :
  makeRequest None (fun _ _ => Throw (OtherError "offline")) ∅ GET "/items" None
  = Throw (OtherError "offline").
Proof.
  exact (proj1 (makeRequest_failures_propagate None
                  (fun _ _ => Throw (OtherError "offline")) ∅ GET "/items" None)
               (OtherError "offline") eq_refl).
Defined.


Lemma makeCancellableRequest_signal_witness :
  exists controller signal,
    fst (makeCancellableRequest None (fun _ _ => Throw (OtherError "offline"))
           GET "/items" (Some [("signal", Obj 5)]) {[ 5 := VObj [] ]})
    = Return (Throw (OtherError "offline"), controller)
    /\ signal <> 5
    /\ obj_find (requestOptions {[ 5 := VObj [] ]} GET ""
                   (Some (obj_set [("signal", Obj 5)] "signal" (Obj signal))))
                "signal"
       = Some (Obj signal).
Proof.
  destruct (makeCancellableRequest_signal None
              (fun _ _ => Throw (OtherError "offline"))
              {[ 5 := VObj [] ]} GET "/items" (Some [("signal", Obj 5)]))
    as (controller & signal & h' & Hrun & _ & Hsignal & _ & _ & Hfind).
  - apply NoDup_singleton.
  - intros key l. cbn [default from_option id obj_find].
    destruct (String.eqb "signal" key); [|done].
    intros [= <-]. by rewrite lookup_singleton_eq.
  - exists controller, signal. rewrite Hrun. split_and!; [done| |exact Hfind].
    intros ->. by rewrite lookup_singleton_eq in Hsignal.
Defined.
